(** * macos-ecosystem-mcp: script validation, escaping and execution wrapper

    A shallow embedding of
      - [src/executor/validator.ts]  (validateScript and its helpers,
        sanitizeForAppleScript),
      - [src/executor/applescript.ts] (executeScript, isAppRunning),
      - [src/shared/utils.ts]        (escapeAppleScriptString, the priority
        codec, timeout),
      - [src/shared/errors.ts]       (the error classes and the keyword
        classifiers),
      - [src/executor/types.ts]      (ALLOWED_APPS, FORBIDDEN_PATTERNS),
      - [src/apps/notes/scripts.ts]  (generateCreateNoteScript).

    A JavaScript string is a sequence of UTF-16 code units.  The embedding
    covers the strings whose code units lie in 0..255 (the Latin-1 range):
    a code unit is an [ascii], a string is a [string].  On that range
    [toLowerCase], [trim], the class [\s] and the case folding of the [i]
    flag are written out exactly as ECMAScript defines them.  Numbers that
    the code handles (lengths, priorities, milliseconds) are integers and
    are modelled in [Z]. *)

From Stdlib Require Import String Ascii List ZArith Lia Bool.
From Stdlib Require Import DecimalString.
Import ListNotations.

Local Open Scope string_scope.
Local Open Scope Z_scope.

(* ===================================================================== *)
(** ** JavaScript string primitives *)
(* ===================================================================== *)

Module JS.

(** Code unit of a character. *)
Definition code (c : ascii) : N := N_of_ascii c.

(** [WhiteSpace] and [LineTerminator] code points below 256: TAB, LF, VT,
    FF, CR, SP and NBSP.  Both [String.prototype.trim] and the regular
    expression class [\s] use this set. *)
Definition isWhiteSpace (c : ascii) : bool :=
  match code c with
  | 9 | 10 | 11 | 12 | 13 | 32 | 160 => true
  | _ => false
  end%N.

(** [String.prototype.toLowerCase] on one Latin-1 code unit: A-Z and
    U+00C0..U+00DE (except the multiplication sign U+00D7) move up by 32. *)
Definition lowerChar (c : ascii) : ascii :=
  let n := code c in
  if ((65 <=? n) && (n <=? 90))%N then ascii_of_N (n + 32)
  else if ((192 <=? n) && (n <=? 222) && negb (n =? 215))%N
       then ascii_of_N (n + 32)
  else c.

Fixpoint toLowerCase (s : string) : string :=
  match s with
  | EmptyString => EmptyString
  | String c r => String (lowerChar c) (toLowerCase r)
  end.

(** [Canonicalize] of the regular expression semantics under the [i] flag
    (no [u] flag): the upper case of the code unit, unless that is not a
    single code unit (U+00DF) or would turn a non-ASCII unit into an ASCII
    one.  U+00B5 and U+00FF fold to units above 255, hence the result in
    [N]. *)
Definition Canonicalize (c : ascii) : N :=
  let n := code c in
  if ((97 <=? n) && (n <=? 122))%N then (n - 32)%N
  else if ((224 <=? n) && (n <=? 254) && negb (n =? 247))%N then (n - 32)%N
  else if (n =? 181)%N then 924%N
  else if (n =? 255)%N then 376%N
  else n.

Fixpoint rev (s : string) : string :=
  match s with
  | EmptyString => EmptyString
  | String c r => rev r ++ String c EmptyString
  end.

Fixpoint trimStart (s : string) : string :=
  match s with
  | EmptyString => EmptyString
  | String c r => if isWhiteSpace c then trimStart r else s
  end.

Definition trimEnd (s : string) : string := rev (trimStart (rev s)).

Definition trim (s : string) : string := trimEnd (trimStart s).

(** [s.includes(sub)]: [sub] occurs in [s] at some index. *)
Fixpoint includes (s sub : string) : bool :=
  prefix sub s ||
  match s with
  | EmptyString => false
  | String _ r => includes r sub
  end.

(** [s.replace(/c/g, r)] for a one-character pattern [c] and a replacement
    text [r] that holds no [$]. *)
Fixpoint replaceAll (c : ascii) (r : string) (s : string) : string :=
  match s with
  | EmptyString => EmptyString
  | String d s' =>
      if Ascii.eqb d c then r ++ replaceAll c r s'
      else String d (replaceAll c r s')
  end.

(** [Array.prototype.includes] on an array of strings. *)
Fixpoint arrayIncludes (l : list string) (x : string) : bool :=
  match l with
  | [] => false
  | y :: l' => String.eqb y x || arrayIncludes l' x
  end.

(** [Array.prototype.some]. *)
Definition some {A} (p : A -> bool) (l : list A) : bool := existsb p l.

(** [String(n)] / template interpolation of an integer, in decimal digits:
    this is what JavaScript prints for an integer of absolute value below
    10^21; from there on it prints the exponent form, which is not
    modelled. *)
Definition numberToString (n : Z) : string :=
  NilZero.string_of_int (Z.to_int n).

Definition length (s : string) : Z := Z.of_nat (String.length s).

(** The double quote U+0022, the single quote U+0027, the line feed and the
    backslash; and a text between two double quotes, as the message
    templates write it. *)
Definition DQUOTE : ascii := ascii_of_N 34.
Definition SQUOTE : ascii := ascii_of_N 39.
Definition LF : ascii := ascii_of_N 10.
Definition BACKSLASH : ascii := ascii_of_N 92.

Definition quoted (s : string) : string :=
  String DQUOTE (s ++ String DQUOTE EmptyString).

End JS.

(* ===================================================================== *)
(** ** src/shared/errors.ts *)
(* ===================================================================== *)

(** Values held in the [details] record of an error. *)
Inductive DetailValue : Type :=
| DStr (s : string)
| DNum (n : Z)
| DStrArray (l : list string).

Definition Details := list (string * DetailValue).

Record MacOSMCPError : Type := mkError {
  name : string;
  message : string;
  code : string;
  details : option Details
}.

Definition SecurityError (msg : string) (d : option Details) : MacOSMCPError :=
  mkError "SecurityError" msg "SECURITY_VIOLATION" d.

(** [{ app, ...details }]: the spread of an object literal after a fixed
    key; a key of [d] equal to [k] overrides the value and keeps the
    position. *)
Fixpoint assocSet (k : string) (v : DetailValue) (d : Details) : Details :=
  match d with
  | [] => [(k, v)]
  | (k', v') :: d' =>
      if String.eqb k' k then (k, v) :: d' else (k', v') :: assocSet k v d'
  end.

Definition spread (base extra : Details) : Details :=
  fold_left (fun acc kv => assocSet (fst kv) (snd kv) acc) extra base.

Definition PermissionError (app : string) (d : Details) : MacOSMCPError :=
  mkError "PermissionError"
    ("Permission denied for " ++ JS.quoted app ++
     ". Please grant access in System Settings > Privacy & Security > Automation")
    "PERMISSION_DENIED"
    (Some (spread [("app", DStr app)] d)).

Definition AppNotFoundError (app : string) (d : Details) : MacOSMCPError :=
  mkError "AppNotFoundError"
    ("Application not found: " ++ JS.quoted app ++ ". Please ensure it is installed.")
    "APP_NOT_FOUND"
    (Some (spread [("app", DStr app)] d)).

Definition ExecutionTimeoutError (timeout : Z) (d : Details) : MacOSMCPError :=
  mkError "ExecutionTimeoutError"
    ("Script execution timed out after " ++ JS.numberToString timeout ++ "ms")
    "EXECUTION_TIMEOUT"
    (Some (spread [("timeout", DNum timeout)] d)).

Definition ScriptExecutionError (msg : string) (d : Details) : MacOSMCPError :=
  mkError "ScriptExecutionError" msg "SCRIPT_EXECUTION_ERROR" (Some d).

Definition isPermissionError (errorMessage : string) : bool :=
  let permissionKeywords :=
    ["not allowed"; "authorization"; "not authorized"; "permission denied";
     "access denied"; "not permitted"] in
  let lowerMessage := JS.toLowerCase errorMessage in
  JS.some (fun keyword => JS.includes lowerMessage keyword) permissionKeywords.

Definition isAppNotFoundError (errorMessage : string) : bool :=
  let notFoundKeywords :=
    ["application isn't running"; "application is not running";
     "can't get application"; "no application"] in
  let lowerMessage := JS.toLowerCase errorMessage in
  JS.some (fun keyword => JS.includes lowerMessage keyword) notFoundKeywords.

(* ===================================================================== *)
(** ** src/executor/types.ts *)
(* ===================================================================== *)

Definition ALLOWED_APPS : list string :=
  ["Reminders"; "Calendar"; "Notes"; "Mail"; "Messages"; "Safari"; "Music";
   "Photos"; "Shortcuts"; "Contacts"; "Finder"].

Definition FORBIDDEN_PATTERNS : list string :=
  ["do shell script"; "sudo"; "rm -rf"; "delete file"; "delete folder";
   "System Events"; "keystroke"; "key code"; "administrator privileges";
   "with administrator"; "curl"; "wget"; "python"; "ruby"; "perl"; "bash";
   "zsh"; "sh -c"].

(* ===================================================================== *)
(** ** src/executor/validator.ts *)
(* ===================================================================== *)

(** Outcome of a call that either returns or throws. *)
Inductive Result (E A : Type) : Type :=
| Ok (a : A)
| Throw (e : E).
Arguments Ok {E A} a.
Arguments Throw {E A} e.

Module Regex.

(** A literal pattern character against an input character under the [i]
    flag. *)
Definition charCI (p c : ascii) : bool :=
  N.eqb (JS.Canonicalize p) (JS.Canonicalize c).

(** A run of literal characters; the rest of the input after it. *)
Fixpoint literalCI (w s : string) : option string :=
  match w with
  | EmptyString => Some s
  | String p w' =>
      match s with
      | EmptyString => None
      | String c s' => if charCI p c then literalCI w' s' else None
      end
  end.

Fixpoint dropWhile (p : ascii -> bool) (s : string) : string :=
  match s with
  | EmptyString => EmptyString
  | String c r => if p c then dropWhile p r else s
  end.

Fixpoint takeWhile (p : ascii -> bool) (s : string) : string :=
  match s with
  | EmptyString => EmptyString
  | String c r => if p c then String c (takeWhile p r) else EmptyString
  end.

(** [\s+].  The quantifier is greedy, and in both patterns below the piece
    after it (a letter or a quote) accepts no white space, so giving back
    characters can never make the rest match: the longest run is the only
    candidate. *)
Definition spaces1 (s : string) : option string :=
  match s with
  | EmptyString => None
  | String c _ =>
      if JS.isWhiteSpace c then Some (dropWhile JS.isWhiteSpace s) else None
  end.

(** The class of the two quote characters. *)
Definition isQuote (c : ascii) : bool :=
  Ascii.eqb c JS.DQUOTE || Ascii.eqb c JS.SQUOTE.

Definition notQuote (c : ascii) : bool := negb (isQuote c).

Definition quote1 (s : string) : option string :=
  match s with
  | EmptyString => None
  | String c r => if isQuote c then Some r else None
  end.

(** The capture group: one or more characters other than a quote; the
    captured text and the rest.  Greedy, and followed by a quote, which the
    class excludes: again the longest run is the only candidate. *)
Definition name1 (s : string) : option (string * string) :=
  match s with
  | EmptyString => None
  | String c _ =>
      if notQuote c then Some (takeWhile notQuote s, dropWhile notQuote s)
      else None
  end.

(** [tell\s+application\s+] and one quote character, at the head of the
    input. *)
Definition tellHead (s : string) : option string :=
  match literalCI "tell" s with
  | None => None
  | Some s1 =>
  match spaces1 s1 with
  | None => None
  | Some s2 =>
  match literalCI "application" s2 with
  | None => None
  | Some s3 =>
  match spaces1 s3 with
  | None => None
  | Some s4 => quote1 s4
  end end end end.

(** The pattern of [scriptTargetsApp] at the head of the input: [tellHead],
    the capture group and a closing quote character.  Returns capture
    group 1 and the length of the whole match. *)
Definition tellAt (s : string) : option (string * nat) :=
  match tellHead s with
  | None => None
  | Some s5 =>
  match name1 s5 with
  | None => None
  | Some (app, s6) =>
  match quote1 s6 with
  | None => None
  | Some s7 => Some (app, (String.length s - String.length s7)%nat)
  end end end.

(** [script.matchAll(tellPattern)], flag [g]: the captures of group 1 of
    the successive matches.  A match ending at [lastIndex] makes the search
    resume there; [skip] counts the characters of the current match that
    are still to be passed over. *)
Fixpoint matchAllFrom (skip : nat) (s : string) : list string :=
  match s with
  | EmptyString => []
  | String _ r =>
      match skip with
      | S k => matchAllFrom k r
      | O =>
          match tellAt s with
          | Some (app, len) => app :: matchAllFrom (len - 1) r
          | None => matchAllFrom 0 r
          end
      end
  end.

Definition matchAll (s : string) : list string := matchAllFrom 0 s.

(** The pattern of [startsWithTellApplication], tested on [s]: without the
    [m] flag the anchor [^] holds at index 0 only. *)
Definition testStart (s : string) : bool :=
  match tellHead s with Some _ => true | None => false end.

End Regex.

Definition isAllowedApp (app : string) : bool :=
  JS.arrayIncludes ALLOWED_APPS app.

Definition scriptTargetsApp (script targetApp : string) : bool :=
  existsb
    (fun declaredApp =>
       negb (String.eqb declaredApp EmptyString) &&
       String.eqb (JS.toLowerCase declaredApp) (JS.toLowerCase targetApp))
    (Regex.matchAll script).

(** Returns the first forbidden pattern found, or [None]. *)
Definition findForbiddenPatternIn (patterns : list string) (script : string)
  : option string :=
  let lowerScript := JS.toLowerCase script in
  find (fun pattern => JS.includes lowerScript (JS.toLowerCase pattern))
       patterns.

Definition findForbiddenPattern (script : string) : option string :=
  findForbiddenPatternIn FORBIDDEN_PATTERNS script.

Definition startsWithTellApplication (script : string) : bool :=
  let trimmed := JS.trim script in
  Regex.testStart trimmed.

Definition maxLength : Z := 50000.

(** The six messages of [validateScript]. *)
Definition msgEmpty : string := "Script cannot be empty".
Definition msgTooLong : string :=
  "Script exceeds maximum length of " ++ JS.numberToString maxLength ++
  " characters".
Definition msgNotAllowed (targetApp : string) : string :=
  "Application " ++ JS.quoted targetApp ++ " is not in the allowed list".
Definition msgMismatch (targetApp : string) : string :=
  "Script does not target the declared application " ++ JS.quoted targetApp.
Definition msgForbidden (forbiddenMatch : string) : string :=
  "Script contains forbidden pattern: " ++ JS.quoted forbiddenMatch.
Definition msgStart : string :=
  "Script must start with " ++ JS.quoted "tell application" ++ " statement".

(** [validateScript]: returns normally or throws a [SecurityError].  The
    two [logger.debug] calls only write to the log stream. *)
Definition validateScript (script targetApp : string)
  : Result MacOSMCPError unit :=
  (* Layer 1 *)
  if String.eqb script EmptyString || (JS.length (JS.trim script) =? 0) then
    Throw (SecurityError msgEmpty None)
  (* Layer 2 *)
  else if JS.length script >? maxLength then
    Throw (SecurityError msgTooLong
             (Some [("actualLength", DNum (JS.length script))]))
  (* Layer 3 *)
  else if negb (isAllowedApp targetApp) then
    Throw (SecurityError (msgNotAllowed targetApp)
             (Some [("app", DStr targetApp);
                    ("allowedApps", DStrArray ALLOWED_APPS)]))
  (* Layer 4 *)
  else if negb (scriptTargetsApp script targetApp) then
    Throw (SecurityError (msgMismatch targetApp)
             (Some [("app", DStr targetApp)]))
  else
  (* Layer 5 *)
  match findForbiddenPattern script with
  | Some forbiddenMatch =>
      Throw (SecurityError (msgForbidden forbiddenMatch)
               (Some [("pattern", DStr forbiddenMatch);
                      ("app", DStr targetApp)]))
  | None =>
  (* Layer 6 *)
  if negb (startsWithTellApplication script) then
    Throw (SecurityError msgStart (Some [("app", DStr targetApp)]))
  else Ok tt
  end.

(** Sanitizes user input for use in AppleScript strings. *)
Definition sanitizeForAppleScript (input : string) : string :=
  JS.replaceAll JS.LF (String JS.BACKSLASH "n")
    (JS.replaceAll JS.DQUOTE (String JS.BACKSLASH (String JS.DQUOTE EmptyString))
       (JS.replaceAll JS.BACKSLASH
          (String JS.BACKSLASH (String JS.BACKSLASH EmptyString)) input)).

(* ===================================================================== *)
(** ** src/shared/utils.ts *)
(* ===================================================================== *)

(** Escapes backslashes, then double quotes. *)
Definition escapeAppleScriptString (input : string) : string :=
  JS.replaceAll JS.DQUOTE (String JS.BACKSLASH (String JS.DQUOTE EmptyString))
    (JS.replaceAll JS.BACKSLASH
       (String JS.BACKSLASH (String JS.BACKSLASH EmptyString)) input).

(** [priorityMap]: an object used as a map from property name to number. *)
Definition priorityMap : list (string * Z) :=
  [("none", 0); ("low", 1); ("medium", 5); ("high", 9)].

Fixpoint lookup (m : list (string * Z)) (k : string) : option Z :=
  match m with
  | [] => None
  | (k', v) :: m' => if String.eqb k' k then Some v else lookup m' k
  end.

Definition priorityToAppleScript (priority : string) : Z :=
  match lookup priorityMap priority with
  | Some v => v
  | None => 0
  end.

Definition appleScriptToPriority (value : Z) : string :=
  if value >=? 9 then "high"
  else if value >=? 5 then "medium"
  else if value >=? 1 then "low"
  else "none".

(** The engine promise handed to [timeout]: it settles [at] so many
    milliseconds after the call, fulfilled with the output or rejected with
    an error of the given message, or it never settles. *)
Inductive Promise : Type :=
| Settles (at_ms : Z) (outcome : Result string string)
| Never.

(** The delay that [setTimeout(callback, ms)] gives its timer: a delay
    below 1 or above 2^31 - 1 milliseconds is set to 1. *)
Definition timerDelay (ms : Z) : Z :=
  if (1 <=? ms) && (ms <=? 2147483647) then ms else 1.

(** [timeout(promise, ms, errorMessage)]: the race of the promise against a
    timer set with [setTimeout(..., ms)].  A promise settled by the time
    the timer fires wins; otherwise the timer rejects with [errorMessage],
    or with the default text when none is given. *)
Definition timeout (promise : Promise) (ms : Z) (errorMessage : option string)
  : Result string string :=
  let timer :=
    Throw (match errorMessage with
           | Some m => m
           | None => "Timeout after " ++ JS.numberToString ms ++ "ms"
           end) in
  match promise with
  | Settles at_ms outcome => if at_ms <=? timerDelay ms then outcome else timer
  | Never => timer
  end.

(* ===================================================================== *)
(** ** src/apps/notes/scripts.ts *)
(* ===================================================================== *)

Definition LFs : string := String JS.LF EmptyString.

Module CreateNoteParams.
Record t : Type := mk { title : string; body : string; folder : string }.
End CreateNoteParams.

Definition generateCreateNoteScript (params : CreateNoteParams.t) : string :=
  let sanitizedTitle := escapeAppleScriptString (CreateNoteParams.title params) in
  let sanitizedBody := escapeAppleScriptString (CreateNoteParams.body params) in
  let sanitizedFolder := escapeAppleScriptString (CreateNoteParams.folder params) in
  let fullContent :=
    "<h1>" ++ sanitizedTitle ++ "</h1><div>" ++ sanitizedBody ++ "</div>" in
  JS.trim
    (LFs ++
     "tell application " ++ JS.quoted "Notes" ++ LFs ++
     "    set targetFolder to folder " ++ JS.quoted sanitizedFolder ++ LFs ++
     "    set newNote to make new note at targetFolder with properties {body:"
       ++ JS.quoted fullContent ++ "}" ++ LFs ++
     "    return id of newNote & " ++ JS.quoted "|" ++ " & name of newNote & "
       ++ JS.quoted "|" ++ " & name of targetFolder" ++ LFs ++
     "end tell" ++ LFs ++
     "  ").

(* ===================================================================== *)
(** ** src/executor/applescript.ts *)
(* ===================================================================== *)

Module ExecutionContext.
Record t : Type := mk {
  script : string;
  app : string;
  operation : string;
  timeout : option Z;
  skipValidation : option bool
}.
End ExecutionContext.

(** The host of one call: what the engine does with a script, and the
    elapsed time [Date.now() - startTime] read when the call ends. *)
Record Host : Type := mkHost {
  runAppleScript : string -> Promise;
  duration : Z
}.

(** What a call does besides returning: the validator is run, an engine
    process is spawned, a line is logged. *)
Inductive LogLevel : Type := Info | Warn | Error.

Inductive Event : Type :=
| EvValidate (script app : string)
| EvSpawn (script : string)
| EvLog (level : LogLevel) (msg : string).

(** A value thrown inside the [try] block: one of the error classes of
    errors.ts, or anything else, of which the handler only reads
    [error instanceof Error ? error.message : String(error)]. *)
Inductive Thrown : Type :=
| ThrownMCP (e : MacOSMCPError)
| ThrownOther (errorMessage : string).

(** Computations that append to the trace of events and return or throw. *)
Definition M (E A : Type) : Type := (list Event * Result E A)%type.

Definition ret {E A} (a : A) : M E A := ([], Ok a).
Definition throw {E A} (e : E) : M E A := ([], Throw e).
Definition emit {E} (ev : Event) : M E unit := ([ev], Ok tt).

Definition bind {E A B} (m : M E A) (f : A -> M E B) : M E B :=
  match m with
  | (tr, Ok a) => let (tr', r) := f a in ((tr ++ tr')%list, r)
  | (tr, Throw e) => (tr, Throw e)
  end.

Definition tryCatch {E E' A} (m : M E A) (handler : E -> M E' A) : M E' A :=
  match m with
  | (tr, Ok a) => (tr, Ok a)
  | (tr, Throw e) => let (tr', r) := handler e in ((tr ++ tr')%list, r)
  end.

Declare Scope exec_scope.
Delimit Scope exec_scope with exec.
Notation "x <- m ;; k" := (bind m (fun x => k))
  (at level 61, m at next level, right associativity) : exec_scope.
Notation "m ;; k" := (bind m (fun _ => k))
  (at level 61, right associativity) : exec_scope.

Definition DEFAULT_TIMEOUT : Z := 30000.

Definition msgTimedOut (scriptTimeout : Z) : string :=
  "Script execution timed out after " ++ JS.numberToString scriptTimeout ++ "ms".

(** The validator called from the [try] block. *)
Definition callValidateScript (script app : string) : M Thrown unit :=
  (emit (EvValidate script app) ;;
   match validateScript script app with
   | Ok _ => ret tt
   | Throw e => throw (ThrownMCP e)
   end)%exec.

(** [await timeout(runAppleScript(ctx.script), ...)]: the engine process is
    spawned, then raced against the timer. *)
Definition awaitEngine (h : Host) (script : string) (scriptTimeout : Z)
  : M Thrown string :=
  (emit (EvSpawn script) ;;
   match timeout (runAppleScript h script) scriptTimeout
                 (Some (msgTimedOut scriptTimeout)) with
   | Ok result => ret result
   | Throw errorMessage => throw (ThrownOther errorMessage)
   end)%exec.

Definition executeScript (h : Host) (ctx : ExecutionContext.t)
  : M MacOSMCPError string :=
  let scriptTimeout :=
    match ExecutionContext.timeout ctx with
    | Some t => t
    | None => DEFAULT_TIMEOUT
    end in
  let app := ExecutionContext.app ctx in
  let operation := ExecutionContext.operation ctx in
  (emit (EvLog Info "Executing AppleScript") ;;
   tryCatch
     ((match ExecutionContext.skipValidation ctx with
       | Some true => emit (EvLog Warn "Security validation skipped")
       | _ => callValidateScript (ExecutionContext.script ctx) app
       end) ;;
      result <- awaitEngine h (ExecutionContext.script ctx) scriptTimeout ;;
      emit (EvLog Info "Script executed successfully") ;;
      ret result)
     (fun error =>
        emit (EvLog Error "Script execution failed") ;;
        match error with
        | ThrownMCP e => throw e
        | ThrownOther errorMessage =>
            if JS.includes errorMessage "timed out" ||
               JS.includes errorMessage "Timeout" then
              throw (ExecutionTimeoutError scriptTimeout
                       [("app", DStr app); ("operation", DStr operation)])
            else if isPermissionError errorMessage then
              throw (PermissionError app
                       [("operation", DStr operation);
                        ("originalError", DStr errorMessage)])
            else if isAppNotFoundError errorMessage then
              throw (AppNotFoundError app
                       [("operation", DStr operation);
                        ("originalError", DStr errorMessage)])
            else
              throw (ScriptExecutionError errorMessage
                       [("app", DStr app); ("operation", DStr operation);
                        ("duration", DNum (duration h))])
        end))%exec.

(** The probe script of [isAppRunning]. *)
Definition isAppRunningScript (appName : string) : string :=
  JS.trim
    (LFs ++
     "tell application " ++ JS.quoted "System Events" ++ LFs ++
     "  return (name of processes) contains " ++ JS.quoted appName ++ LFs ++
     "end tell" ++ LFs ++
     "  ").

Definition isAppRunning (h : Host) (appName : string) : M MacOSMCPError bool :=
  let script := isAppRunningScript appName in
  tryCatch
    (result <- executeScript h
       (ExecutionContext.mk script "System Events" "check_running"
          (Some 5000) (Some true)) ;;
     ret (String.eqb (JS.trim result) "true"))%exec
    (fun _ => ret false).

(* ===================================================================== *)
(** ** More of validator.ts, utils.ts and applescript.ts *)
(* ===================================================================== *)

(** [re.test(s)] for a pattern that is one character class: some
    character of [s] is in the class. *)
Fixpoint testClass (p : ascii -> bool) (s : string) : bool :=
  match s with
  | EmptyString => false
  | String c r => p c || testClass p r
  end.

(** The class of the name validators: the characters less-than,
    greater-than, colon, double quote, bar, question mark and star, and the
    control characters U+0000..U+001F. *)
Definition isSuspicious (c : ascii) : bool :=
  let n := JS.code c in
  ((n =? 60) || (n =? 62) || (n =? 58) || (n =? 34) || (n =? 124) ||
   (n =? 63) || (n =? 42) || (n <=? 31))%N.

(** The body that [validateListName], [validateCalendarName] and
    [validateFolderName] share; they differ in the word that starts their
    messages. *)
Definition validateNameAs (what name : string) : Result MacOSMCPError unit :=
  if String.eqb name EmptyString || (JS.length (JS.trim name) =? 0) then
    Throw (SecurityError (what ++ " name cannot be empty") None)
  else if JS.length name >? 255 then
    Throw (SecurityError (what ++ " name is too long (max 255 characters)") None)
  else if testClass isSuspicious name then
    Throw (SecurityError (what ++ " name contains invalid characters") None)
  else Ok tt.

Definition validateListName (name : string) : Result MacOSMCPError unit :=
  validateNameAs "List" name.

Definition validateCalendarName (name : string) : Result MacOSMCPError unit :=
  validateNameAs "Calendar" name.

Definition validateFolderName (name : string) : Result MacOSMCPError unit :=
  validateNameAs "Folder" name.

(** [str.substring(0, end)]: [end] is clamped to the range from 0 to the
    length. *)
Definition substring0 (str : string) (end_ : Z) : string :=
  String.substring 0 (Z.to_nat end_) str.

(** Safely truncates a string to a maximum length. *)
Definition truncate (str : string) (maxLength : Z) : string :=
  if JS.length str <=? maxLength then str
  else substring0 str (maxLength - 3) ++ "...".

(** A value of type [unknown], of which [isNonEmptyString] only asks
    whether it is a string. *)
Inductive Unknown : Type :=
| UString (s : string)
| UOther.

Definition isNonEmptyString (value : Unknown) : bool :=
  match value with
  | UString s => JS.length (JS.trim s) >? 0
  | UOther => false
  end.

(** *** retry *)

(** The options of [retry].  [maxRetries] ranges over the non-negative
    integers here.  The source takes any number: for a negative one its
    loop makes no call and [undefined] is thrown, for a fractional one a
    sleep follows the last call as well; this model covers neither. *)
Module RetryOptions.
Record t : Type := mk {
  maxRetries : option nat;
  initialDelay : option Z;
  maxDelay : option Z;
  backoffMultiplier : option Z
}.
End RetryOptions.


(** What [retry] does besides returning: it calls [fn] and it sleeps. *)
Inductive RetryEvent : Type :=
| Called (attempt : nat)
| Delayed (ms : Z).

(** The loop of [retry] from one attempt on.  [fn attempt] is the outcome
    of the call made at that attempt, an error being given by its message;
    [retriesLeft] is [maxRetries - attempt]. *)
Fixpoint retryLoop {A : Type} (fn : nat -> Result string A)
    (maxDelay backoffMultiplier : Z)
    (retriesLeft attempt : nat) (currentDelay : Z)
  : list RetryEvent * Result string A :=
  match fn attempt with
  | Ok a => ([Called attempt], Ok a)
  | Throw lastError =>
      match retriesLeft with
      | O => ([Called attempt], Throw lastError)
      | S k =>
          let (tr, r) :=
            retryLoop fn maxDelay backoffMultiplier k (S attempt)
                      (currentDelay * backoffMultiplier) in
          (Called attempt :: Delayed (Z.min currentDelay maxDelay) :: tr, r)
      end
  end.


(** *** executeScriptWithResult, testAppAccess *)

Module ExecutionResult.
Record t : Type := mk { output : string; duration : Z; success : bool }.
End ExecutionResult.

(** [elapsed] is the reading [Date.now() - startTime] of the clock of this
    function when the inner call has ended. *)
Definition executeScriptWithResult (h : Host) (elapsed : Z)
    (ctx : ExecutionContext.t) : M MacOSMCPError ExecutionResult.t :=
  tryCatch
    (output <- executeScript h ctx ;;
     ret (ExecutionResult.mk output elapsed true))%exec
    (fun error => ret (ExecutionResult.mk (message error) elapsed false)).

Definition testAppAccessScript (appName : string) : string :=
  JS.trim
    (LFs ++
     "tell application " ++ JS.quoted appName ++ LFs ++
     "  return " ++ JS.quoted "success" ++ LFs ++
     "end tell" ++ LFs ++
     "  ").

Definition testAppAccess (h : Host) (appName : string)
  : M MacOSMCPError bool :=
  let testScript := testAppAccessScript appName in
  tryCatch
    (executeScript h
       (ExecutionContext.mk testScript appName "test_access"
          (Some 5000) None) ;;
     emit (EvLog Info "App access test successful") ;;
     ret true)%exec
    (fun error =>
       emit (EvLog Warn "App access test failed") ;;
       ret false)%exec.

(* ===================================================================== *)
(** ** More of src/apps/notes/scripts.ts *)
(* ===================================================================== *)

(** One double quote, and one backslash, as texts. *)
Definition DQs : string := String JS.DQUOTE EmptyString.
Definition BSs : string := String JS.BACKSLASH EmptyString.

(** The template literals of [generateAppendNoteScript] and
    [generateSearchNotesScript], as functions of the texts that they
    interpolate. *)
Definition appendByIdTemplate (sanitizedId sanitizedContent : string) : string :=
  LFs ++
  "tell application " ++ DQs ++ "Notes" ++ DQs ++ LFs ++
  "    set targetNote to note id " ++ DQs ++ sanitizedId ++ DQs ++ LFs ++
  "    set currentBody to body of targetNote" ++ LFs ++
  "    set body of targetNote to currentBody & " ++ DQs ++ "<div>" ++ sanitizedContent ++ "</div>" ++ DQs ++ LFs ++
  "    return id of targetNote & " ++ DQs ++ "|" ++ DQs ++ " & name of targetNote" ++ LFs ++
  "end tell" ++ LFs ++
  "    ".

Definition appendInFolderTemplate (sanitizedFolder sanitizedTitle sanitizedContent : string) : string :=
  LFs ++
  "tell application " ++ DQs ++ "Notes" ++ DQs ++ LFs ++
  "    set targetFolder to folder " ++ DQs ++ sanitizedFolder ++ DQs ++ LFs ++
  "    set matchingNotes to (notes of targetFolder whose name is " ++ DQs ++ sanitizedTitle ++ DQs ++ ")" ++ LFs ++
  LFs ++
  "    if (count of matchingNotes) > 0 then" ++ LFs ++
  "        set targetNote to item 1 of matchingNotes" ++ LFs ++
  "        set currentBody to body of targetNote" ++ LFs ++
  "        set body of targetNote to currentBody & " ++ DQs ++ "<div>" ++ sanitizedContent ++ "</div>" ++ DQs ++ LFs ++
  "        return id of targetNote & " ++ DQs ++ "|" ++ DQs ++ " & name of targetNote" ++ LFs ++
  "    else" ++ LFs ++
  "        error " ++ DQs ++ "No note found with title: " ++ sanitizedTitle ++ " in folder " ++ sanitizedFolder ++ DQs ++ LFs ++
  "    end if" ++ LFs ++
  "end tell" ++ LFs ++
  "      ".

Definition appendByTitleTemplate (sanitizedTitle sanitizedContent : string) : string :=
  LFs ++
  "tell application " ++ DQs ++ "Notes" ++ DQs ++ LFs ++
  "    set allFolders to folders" ++ LFs ++
  "    set folderCount to count of allFolders" ++ LFs ++
  LFs ++
  "    repeat with i from 1 to folderCount" ++ LFs ++
  "        set fld to item i of allFolders" ++ LFs ++
  "        set matchingNotes to (notes of fld whose name is " ++ DQs ++ sanitizedTitle ++ DQs ++ ")" ++ LFs ++
  LFs ++
  "        if (count of matchingNotes) > 0 then" ++ LFs ++
  "            set targetNote to item 1 of matchingNotes" ++ LFs ++
  "            set currentBody to body of targetNote" ++ LFs ++
  "            set body of targetNote to currentBody & " ++ DQs ++ "<div>" ++ sanitizedContent ++ "</div>" ++ DQs ++ LFs ++
  "            return id of targetNote & " ++ DQs ++ "|" ++ DQs ++ " & name of targetNote" ++ LFs ++
  "        end if" ++ LFs ++
  "    end repeat" ++ LFs ++
  LFs ++
  "    error " ++ DQs ++ "No note found with title: " ++ sanitizedTitle ++ DQs ++ LFs ++
  "end tell" ++ LFs ++
  "      ".

Definition searchInFolderTemplate (sanitizedFolder sanitizedQuery : string) : string :=
  LFs ++
  "tell application " ++ DQs ++ "Notes" ++ DQs ++ LFs ++
  "    set targetFolder to folder " ++ DQs ++ sanitizedFolder ++ DQs ++ LFs ++
  "    set folderName to name of targetFolder" ++ LFs ++
  "    set c to count of notes of targetFolder" ++ LFs ++
  "    set outputList to {}" ++ LFs ++
  LFs ++
  "    if c > 0 then" ++ LFs ++
  "        set theIds to id of notes of targetFolder" ++ LFs ++
  "        set theNames to name of notes of targetFolder" ++ LFs ++
  "        set theBodies to body of notes of targetFolder" ++ LFs ++
  "        set theCreated to creation date of notes of targetFolder" ++ LFs ++
  "        set theModified to modification date of notes of targetFolder" ++ LFs ++
  LFs ++
  "        repeat with j from 1 to c" ++ LFs ++
  "            set noteName to item j of theNames" ++ LFs ++
  "            set noteBody to item j of theBodies" ++ LFs ++
  LFs ++
  "            -- Check if query appears in name or body" ++ LFs ++
  "            if (noteName contains " ++ DQs ++ sanitizedQuery ++ DQs ++ " or noteBody contains " ++ DQs ++ sanitizedQuery ++ DQs ++ ") then" ++ LFs ++
  "                set noteCreated to " ++ DQs ++ DQs ++ LFs ++
  "                try" ++ LFs ++
  "                    set noteCreated to short date string of (item j of theCreated) & " ++ DQs ++ " " ++ DQs ++ " & time string of (item j of theCreated)" ++ LFs ++
  "                end try" ++ LFs ++
  "                set noteModified to " ++ DQs ++ DQs ++ LFs ++
  "                try" ++ LFs ++
  "                    set noteModified to short date string of (item j of theModified) & " ++ DQs ++ " " ++ DQs ++ " & time string of (item j of theModified)" ++ LFs ++
  "                end try" ++ LFs ++
  LFs ++
  "                -- Get excerpt (first 200 chars of body)" ++ LFs ++
  "                set excerpt to noteBody" ++ LFs ++
  "                if (count of excerpt) > 200 then" ++ LFs ++
  "                    set excerpt to text 1 thru 200 of excerpt" ++ LFs ++
  "                end if" ++ LFs ++
  LFs ++
  "                set end of outputList to (item j of theIds) & " ++ DQs ++ "||" ++ DQs ++ " & noteName & " ++ DQs ++ "||" ++ DQs ++ " & folderName & " ++ DQs ++ "||" ++ DQs ++ " & excerpt & " ++ DQs ++ "||" ++ DQs ++ " & noteCreated & " ++ DQs ++ "||" ++ DQs ++ " & noteModified" ++ LFs ++
  "            end if" ++ LFs ++
  "        end repeat" ++ LFs ++
  "    end if" ++ LFs ++
  LFs ++
  "    set AppleScript's text item delimiters to " ++ DQs ++ BSs ++ "n" ++ DQs ++ LFs ++
  "    set outputText to outputList as text" ++ LFs ++
  "    set AppleScript's text item delimiters to " ++ DQs ++ DQs ++ LFs ++
  "    return outputText" ++ LFs ++
  "end tell" ++ LFs ++
  "    ".

Definition searchAllTemplate (sanitizedQuery : string) : string :=
  LFs ++
  "tell application " ++ DQs ++ "Notes" ++ DQs ++ LFs ++
  "    set allFolders to folders" ++ LFs ++
  "    set outputList to {}" ++ LFs ++
  "    set folderCount to count of allFolders" ++ LFs ++
  LFs ++
  "    repeat with i from 1 to folderCount" ++ LFs ++
  "        set fld to item i of allFolders" ++ LFs ++
  "        set folderName to name of fld" ++ LFs ++
  "        set c to count of notes of fld" ++ LFs ++
  LFs ++
  "        if c > 0 then" ++ LFs ++
  "            set theIds to id of notes of fld" ++ LFs ++
  "            set theNames to name of notes of fld" ++ LFs ++
  "            set theBodies to body of notes of fld" ++ LFs ++
  "            set theCreated to creation date of notes of fld" ++ LFs ++
  "            set theModified to modification date of notes of fld" ++ LFs ++
  LFs ++
  "            repeat with j from 1 to c" ++ LFs ++
  "                set noteName to item j of theNames" ++ LFs ++
  "                set noteBody to item j of theBodies" ++ LFs ++
  LFs ++
  "                -- Check if query appears in name or body" ++ LFs ++
  "                if (noteName contains " ++ DQs ++ sanitizedQuery ++ DQs ++ " or noteBody contains " ++ DQs ++ sanitizedQuery ++ DQs ++ ") then" ++ LFs ++
  "                    set noteCreated to " ++ DQs ++ DQs ++ LFs ++
  "                    try" ++ LFs ++
  "                        set noteCreated to short date string of (item j of theCreated) & " ++ DQs ++ " " ++ DQs ++ " & time string of (item j of theCreated)" ++ LFs ++
  "                    end try" ++ LFs ++
  "                    set noteModified to " ++ DQs ++ DQs ++ LFs ++
  "                    try" ++ LFs ++
  "                        set noteModified to short date string of (item j of theModified) & " ++ DQs ++ " " ++ DQs ++ " & time string of (item j of theModified)" ++ LFs ++
  "                    end try" ++ LFs ++
  LFs ++
  "                    -- Get excerpt (first 200 chars of body)" ++ LFs ++
  "                    set excerpt to noteBody" ++ LFs ++
  "                    if (count of excerpt) > 200 then" ++ LFs ++
  "                        set excerpt to text 1 thru 200 of excerpt" ++ LFs ++
  "                    end if" ++ LFs ++
  LFs ++
  "                    set end of outputList to (item j of theIds) & " ++ DQs ++ "||" ++ DQs ++ " & noteName & " ++ DQs ++ "||" ++ DQs ++ " & folderName & " ++ DQs ++ "||" ++ DQs ++ " & excerpt & " ++ DQs ++ "||" ++ DQs ++ " & noteCreated & " ++ DQs ++ "||" ++ DQs ++ " & noteModified" ++ LFs ++
  "                end if" ++ LFs ++
  "            end repeat" ++ LFs ++
  "        end if" ++ LFs ++
  "    end repeat" ++ LFs ++
  LFs ++
  "    set AppleScript's text item delimiters to " ++ DQs ++ BSs ++ "n" ++ DQs ++ LFs ++
  "    set outputText to outputList as text" ++ LFs ++
  "    set AppleScript's text item delimiters to " ++ DQs ++ DQs ++ LFs ++
  "    return outputText" ++ LFs ++
  "end tell" ++ LFs ++
  "    ".

Module AppendNoteParams.
Record t : Type := mk {
  noteId : option string;
  title : option string;
  folder : option string;
  content : string
}.
End AppendNoteParams.

Module SearchNotesParams.
Record t : Type := mk {
  query : string;
  folder : option string;
  limit : Z
}.
End SearchNotesParams.

(** An optional string used as a condition: it must be given and not
    empty. *)
Definition truthy (o : option string) : option string :=
  match o with
  | Some s => if String.eqb s EmptyString then None else Some s
  | None => None
  end.

(** The error of calling [replace] on [undefined]. *)
Inductive JSError : Type := TypeError.

Definition generateAppendNoteScript (params : AppendNoteParams.t)
  : Result JSError string :=
  let sanitizedContent :=
    escapeAppleScriptString (AppendNoteParams.content params) in
  match truthy (AppendNoteParams.noteId params) with
  | Some noteId =>
      let sanitizedId := escapeAppleScriptString noteId in
      Ok (JS.trim (appendByIdTemplate sanitizedId sanitizedContent))
  | None =>
      match AppendNoteParams.title params with
      | None => Throw TypeError
      | Some title =>
          let sanitizedTitle := escapeAppleScriptString title in
          match truthy (AppendNoteParams.folder params) with
          | Some folder =>
              let sanitizedFolder := escapeAppleScriptString folder in
              Ok (JS.trim (appendInFolderTemplate sanitizedFolder
                             sanitizedTitle sanitizedContent))
          | None =>
              Ok (JS.trim (appendByTitleTemplate sanitizedTitle
                             sanitizedContent))
          end
      end
  end.

Definition generateSearchNotesScript (params : SearchNotesParams.t) : string :=
  let sanitizedQuery :=
    escapeAppleScriptString (SearchNotesParams.query params) in
  match truthy (SearchNotesParams.folder params) with
  | Some folder =>
      let sanitizedFolder := escapeAppleScriptString folder in
      JS.trim (searchInFolderTemplate sanitizedFolder sanitizedQuery)
  | None => JS.trim (searchAllTemplate sanitizedQuery)
  end.

(* ===================================================================== *)
(** ** The words of the specification *)
(* ===================================================================== *)

Fixpoint chars (s : string) : list ascii :=
  match s with
  | EmptyString => []
  | String c r => c :: chars r
  end.

(** A blank script: empty, or white space only. *)
Definition blank (s : string) : bool := forallb JS.isWhiteSpace (chars s).

(** Two texts are equal up to the case of their letters. *)
Definition ciEq (a b : string) : Prop := JS.toLowerCase a = JS.toLowerCase b.

(** The text [p] occurs somewhere in [script], compared without regard to
    case. *)
Definition ciOccurs (p script : string) : Prop :=
  exists pre mid post, script = pre ++ mid ++ post /\ ciEq mid p.

(** The character-by-character escaping that the specification describes:
    one pass over the input, each character rewritten on its own. *)
Fixpoint flatMap (f : ascii -> string) (s : string) : string :=
  match s with
  | EmptyString => EmptyString
  | String c r => f c ++ flatMap f r
  end.

Definition escapeChar (c : ascii) : string :=
  if Ascii.eqb c JS.BACKSLASH then String JS.BACKSLASH (String JS.BACKSLASH EmptyString)
  else if Ascii.eqb c JS.DQUOTE then String JS.BACKSLASH (String JS.DQUOTE EmptyString)
  else String c EmptyString.

Definition sanitizeChar (c : ascii) : string :=
  if Ascii.eqb c JS.LF then String JS.BACKSLASH "n" else escapeChar c.

(** The title of scenario E and its expected escaped form. *)
Definition scenarioE_title : string :=
  "Task with " ++ JS.quoted "quotes" ++ " and " ++ String JS.BACKSLASH "backslash".

Definition scenarioE_escaped : string :=
  "Task with " ++ String JS.BACKSLASH (String JS.DQUOTE "quotes")
    ++ String JS.BACKSLASH (String JS.DQUOTE " and ")
    ++ String JS.BACKSLASH (String JS.BACKSLASH "backslash").

Definition PRIORITIES : list string := ["none"; "low"; "medium"; "high"].

(** The timeout in force for a call: [ctx.timeout ?? DEFAULT_TIMEOUT]. *)
Definition effectiveTimeout (ctx : ExecutionContext.t) : Z :=
  match ExecutionContext.timeout ctx with
  | Some t => t
  | None => DEFAULT_TIMEOUT
  end.

(** The engine promise settles within [ms] milliseconds. *)
Definition settlesWithin (p : Promise) (ms : Z) : bool :=
  match p with
  | Settles at_ms _ => at_ms <=? ms
  | Never => false
  end.

(** Validation is requested unless [skipValidation] is truthy. *)
Definition validationOn (ctx : ExecutionContext.t) : bool :=
  match ExecutionContext.skipValidation ctx with
  | Some true => false
  | _ => true
  end.

Definition isSpawn (ev : Event) : bool :=
  match ev with EvSpawn _ => true | _ => false end.

Definition isValidate (ev : Event) : bool :=
  match ev with EvValidate _ _ => true | _ => false end.

(** No engine process is spawned along a trace. *)
Definition neverSpawns (tr : list Event) : bool := negb (existsb isSpawn tr).

(** The validator is not run along a trace. *)
Definition neverValidates (tr : list Event) : bool :=
  negb (existsb isValidate tr).

(** The value that an error carries under a key of its details. *)
Fixpoint assocGet (k : string) (d : Details) : option DetailValue :=
  match d with
  | [] => None
  | (k', v) :: d' => if String.eqb k' k then Some v else assocGet k d'
  end.

Definition carried (k : string) (e : MacOSMCPError) : option DetailValue :=
  match details e with
  | Some d => assocGet k d
  | None => None
  end.

(** The call context that [isAppRunning] builds. *)
Definition isAppRunningContext (appName : string) : ExecutionContext.t :=
  ExecutionContext.mk (isAppRunningScript appName) "System Events"
    "check_running" (Some 5000) (Some true).

(** The probe script of [isAppRunning] with its template trimmed. *)
Definition probeHead : string :=
  "tell application " ++ JS.quoted "System Events" ++ LFs ++
  "  return (name of processes) contains " ++ String JS.DQUOTE EmptyString.

Definition probeTail : string := String JS.DQUOTE (LFs ++ "end tell").

Definition probeText (appName : string) : string :=
  probeHead ++ appName ++ probeTail.

(** A run of white space, at least one character. *)
Definition whites (s : string) : Prop := s <> EmptyString /\ blank s = true.

Definition noQuotes (s : string) : bool := forallb Regex.notQuote (chars s).

(** An opening-target clause naming [x]: the words tell and application in
    any case, each followed by white space, then [x] between two quote
    characters, where [x] is not empty and holds no quote character. *)
Inductive OpeningClause (x : string) : string -> Prop :=
| OpeningClause_intro (t w1 a w2 : string) (q1 q2 : ascii) :
    ciEq t "tell" -> whites w1 -> ciEq a "application" -> whites w2 ->
    Regex.isQuote q1 = true -> Regex.isQuote q2 = true ->
    x <> EmptyString -> noQuotes x = true ->
    OpeningClause x
      (t ++ w1 ++ a ++ w2 ++ String q1 (x ++ String q2 EmptyString)).

(** Some opening-target clause in the script names the application, up to
    case. *)
Definition namesApp (script app : string) : Prop :=
  exists pre clause post x,
    script = pre ++ clause ++ post /\ OpeningClause x clause /\ ciEq x app.

(** The same, decided by trying the pattern at every index. *)
Fixpoint anyClause (p : string -> bool) (s : string) : bool :=
  match Regex.tellAt s with
  | Some (x, _) => p x
  | None => false
  end ||
  match s with
  | EmptyString => false
  | String _ r => anyClause p r
  end.

Definition namesAppb (script app : string) : bool :=
  anyClause (fun x => String.eqb (JS.toLowerCase x) (JS.toLowerCase app)) script.

(** All 256 code units. *)
Definition allAscii : list ascii := map ascii_of_nat (seq 0 256).

(** The input has no first character, or one that [p] refuses. *)
Definition headFails (p : ascii -> bool) (s : string) : Prop :=
  match s with
  | EmptyString => True
  | String c _ => p c = false
  end.

(** *** Words for the further properties *)

(** Reading the body of a string literal, from just after its opening
    double quote: a backslash takes the next character as it is, the
    letter n after a backslash standing for a line feed; a double quote
    that no backslash protects closes the literal.  The result is the text
    read and what follows the closing quote. *)
Definition unescapeChar (d : ascii) : ascii :=
  if Ascii.eqb d "n"%char then JS.LF else d.

Fixpoint readLiteral (s : string) : option (string * string) :=
  match s with
  | EmptyString => None
  | String c r =>
      if Ascii.eqb c JS.DQUOTE then Some (EmptyString, r)
      else if Ascii.eqb c JS.BACKSLASH then
        match r with
        | EmptyString => None
        | String d r' =>
            match readLiteral r' with
            | Some (t, rest) => Some (String (unescapeChar d) t, rest)
            | None => None
            end
        end
      else
        match readLiteral r with
        | Some (t, rest) => Some (String c t, rest)
        | None => None
        end
  end.

(** The characters that [escapeAppleScriptString] rewrites. *)
Definition isSpecial (c : ascii) : bool :=
  Ascii.eqb c JS.BACKSLASH || Ascii.eqb c JS.DQUOTE.

Definition countIf (p : ascii -> bool) (s : string) : nat :=
  List.length (filter p (chars s)).

(** No forbidden pattern is found in a text. *)
Definition clean (s : string) : bool :=
  match findForbiddenPattern s with
  | None => true
  | Some _ => false
  end.

(** A character that, up to case, occurs in some pattern of the list. *)
Definition patternChar (patterns : list string) (c : ascii) : bool :=
  existsb
    (fun p => existsb (Ascii.eqb (JS.lowerChar c)) (chars (JS.toLowerCase p)))
    patterns.

(** The number of engine processes spawned along a trace. *)
Definition spawnCount (tr : list Event) : nat :=
  List.length (filter isSpawn tr).

(** The engine promise is fulfilled with [out] by the deadline. *)
Definition fulfilsWithin (p : Promise) (ms : Z) (out : string) : Prop :=
  exists at_ms, p = Settles at_ms (Ok out) /\ at_ms <= ms.

(** The engine promise is rejected with [msg] by the deadline. *)
Definition rejectsWithin (p : Promise) (ms : Z) (msg : string) : Prop :=
  exists at_ms, p = Settles at_ms (Throw msg) /\ at_ms <= ms.

(** The pairs of class name and code of the errors of errors.ts that
    [executeScript] can throw. *)
Definition EXECUTION_ERRORS : list (string * string) :=
  [("SecurityError", "SECURITY_VIOLATION");
   ("ExecutionTimeoutError", "EXECUTION_TIMEOUT");
   ("PermissionError", "PERMISSION_DENIED");
   ("AppNotFoundError", "APP_NOT_FOUND");
   ("ScriptExecutionError", "SCRIPT_EXECUTION_ERROR")].

Definition PERMISSION_KEYWORDS : list string :=
  ["not allowed"; "authorization"; "not authorized"; "permission denied";
   "access denied"; "not permitted"].

Definition NOT_FOUND_KEYWORDS : list string :=
  ["application isn't running"; "application is not running";
   "can't get application"; "no application"].

(** The calls and the sleeps of a run of [retry]. *)
Definition callsOf (tr : list RetryEvent) : list nat :=
  flat_map (fun ev => match ev with Called k => [k] | Delayed _ => [] end) tr.

Definition delaysOf (tr : list RetryEvent) : list Z :=
  flat_map (fun ev => match ev with Called _ => [] | Delayed ms => [ms] end) tr.

(** The first [n] sleeps of the backoff schedule that starts at [d]. *)
Fixpoint backoff (maxDelay mult : Z) (n : nat) (d : Z) : list Z :=
  match n with
  | O => []
  | S k => Z.min d maxDelay :: backoff maxDelay mult k (d * mult)
  end.

(** The fixed text of the script of [generateCreateNoteScript], between
    the three escaped fields. *)
Definition noteSeg0 : string :=
  "tell application " ++ JS.quoted "Notes" ++ LFs ++
  "    set targetFolder to folder ".

Definition noteSeg1 : string :=
  LFs ++
  "    set newNote to make new note at targetFolder with properties {body:"
  ++ String JS.DQUOTE "<h1".

Definition noteSeg2 : string := "/h1><div".

Definition noteSeg3 : string :=
  "/div>" ++ String JS.DQUOTE "}" ++ LFs ++
  "    return id of newNote & " ++ JS.quoted "|" ++ " & name of newNote & "
  ++ JS.quoted "|" ++ " & name of targetFolder" ++ LFs ++ "end tell".

Definition createNoteText (folder' title' body' : string) : string :=
  noteSeg0 ++ String JS.DQUOTE (folder' ++ String JS.DQUOTE (noteSeg1 ++
  String ">" (title' ++ String "<" (noteSeg2 ++
  String ">" (body' ++ String "<" noteSeg3))))).

(** The script of [testAppAccess] with its template trimmed. *)
Definition accessText (appName : string) : string :=
  "tell application " ++ String JS.DQUOTE EmptyString ++ appName ++
  String JS.DQUOTE (LFs ++ "  return " ++ JS.quoted "success" ++ LFs ++ "end tell").

(** *** Words for patterns across fixed text *)

(** Two texts differ at some index that both have. *)
Fixpoint clashes (v s : string) : bool :=
  match v, s with
  | String c v', String d s' => if Ascii.eqb c d then clashes v' s' else true
  | _, _ => false
  end.

(** The suffixes of a text that are not empty, and of those the ones that
    are not the whole text. *)
Fixpoint suffixes (s : string) : list string :=
  match s with
  | EmptyString => []
  | String _ r => s :: suffixes r
  end.

Definition properSuffixes (p : string) : list string :=
  match p with
  | EmptyString => []
  | String _ r => suffixes r
  end.

(** [p] starts with all of [X] and goes on, with at least one character,
    into [B]. *)
Fixpoint cross (p X B : string) : bool :=
  match X with
  | EmptyString => negb (String.eqb p EmptyString) && prefix p B
  | String x X' =>
      match p with
      | EmptyString => false
      | String p0 p' => Ascii.eqb p0 x && cross p' X' B
      end
  end.

(** [p] occurs in [A ++ B] across the seam. *)
Fixpoint straddles (p A B : string) : bool :=
  match A with
  | EmptyString => false
  | String _ A' => cross p A B || straddles p A' B
  end.

(** No occurrence of [p] can touch the fixed text [S], whatever stands
    before and after it. *)
Definition sepSafeFor (p S : string) : bool :=
  forallb (fun v => clashes v S) (properSuffixes p) &&
  negb (JS.includes S p) &&
  forallb (fun X => clashes X p) (suffixes S).

Definition sepSafe (S : string) : bool :=
  forallb (fun p => sepSafeFor (JS.toLowerCase p) (JS.toLowerCase S))
          FORBIDDEN_PATTERNS.

(** [c.repeat(n)]. *)
Fixpoint repeatChar (c : ascii) (n : nat) : string :=
  match n with
  | O => EmptyString
  | S k => String c (repeatChar c k)
  end.

(** *** Words for the templates of the Notes scripts *)

(** Fields woven between the pieces of fixed text that follow them. *)
Fixpoint weaveTail (fields segs : list string) : string :=
  match fields, segs with
  | f :: fields', s :: segs' => f ++ s ++ weaveTail fields' segs'
  | _, _ => EmptyString
  end.

Definition weave (segs fields : list string) : string :=
  match segs with
  | [] => EmptyString
  | s0 :: segs' => s0 ++ weaveTail fields segs'
  end.

(** [s.split(m)] for a one-character separator. *)
Fixpoint splitOn (m : ascii) (s : string) : list string :=
  match s with
  | EmptyString => [EmptyString]
  | String c r =>
      if Ascii.eqb c m then EmptyString :: splitOn m r
      else match splitOn m r with
           | [] => [String c EmptyString]
           | x :: l => String c x :: l
           end
  end.

(** The fixed text of a trimmed template: the template is filled with a
    mark that occurs nowhere in it, and cut at the marks. *)
Definition MARK : string := String (ascii_of_N 1) EmptyString.

Definition segmentsOf (filled : string) : list string :=
  splitOn (ascii_of_N 1) (JS.trim filled).

Definition appendByIdSegs : list string :=
  Eval vm_compute in segmentsOf (appendByIdTemplate MARK MARK).

Definition appendInFolderSegs : list string :=
  Eval vm_compute in segmentsOf (appendInFolderTemplate MARK MARK MARK).

Definition appendByTitleSegs : list string :=
  Eval vm_compute in segmentsOf (appendByTitleTemplate MARK MARK).

Definition searchInFolderSegs : list string :=
  Eval vm_compute in segmentsOf (searchInFolderTemplate MARK MARK).

Definition searchAllSegs : list string :=
  Eval vm_compute in segmentsOf (searchAllTemplate MARK).

(** Fixed text at the start of a script: no pattern occurs in it or
    starts in it and goes on after it. *)
Definition firstSafe (S : string) : bool :=
  forallb
    (fun p =>
       negb (JS.includes (JS.toLowerCase S) (JS.toLowerCase p)) &&
       forallb (fun X => clashes X (JS.toLowerCase p))
               (suffixes (JS.toLowerCase S)))
    FORBIDDEN_PATTERNS.

(** A text that is not blank and does not end in white space. *)
Definition trimmed (t : string) : bool :=
  negb (blank t) && String.eqb (JS.trimEnd t) t.

(** The opening clause of every Notes script. *)
Definition notesClause : string := "tell application " ++ JS.quoted "Notes".

(** The conditions under which a list of pieces of fixed text is the
    skeleton of a Notes script. *)
Definition skeleton (segs : list string) : bool :=
  match segs with
  | [] => false
  | s0 :: segs' =>
      prefix notesClause s0 && firstSafe s0 && forallb sepSafe segs' &&
      trimmed (last segs EmptyString)
  end.

(** The texts that each generator interpolates, in the order of the
    template. *)
Definition appendFields (params : AppendNoteParams.t) : list string :=
  let content := AppendNoteParams.content params in
  match truthy (AppendNoteParams.noteId params) with
  | Some noteId => [noteId; content]
  | None =>
      match AppendNoteParams.title params with
      | None => []
      | Some title =>
          match truthy (AppendNoteParams.folder params) with
          | Some folder => [folder; title; content; title; folder]
          | None => [title; content; title]
          end
      end
  end.

Definition searchFields (params : SearchNotesParams.t) : list string :=
  let query := SearchNotesParams.query params in
  match truthy (SearchNotesParams.folder params) with
  | Some folder => [folder; query; query]
  | None => [query; query]
  end.

(** The largest integer that a JavaScript number holds exactly together
    with its neighbours, [Number.MAX_SAFE_INTEGER] = 2^53 - 1; and the
    largest delay that [setTimeout] takes as it is, 2^31 - 1. *)
Definition MAX_SAFE_INTEGER : Z := 9007199254740991.
Definition MAX_TIMER_DELAY : Z := 2147483647.


(** A script in which an opening clause naming Reminders stands inside the
    quoted name of an earlier clause, followed by a shell command. *)
Definition nestedClauseScript : string :=
  "tell application " ++ JS.quoted "tell application 'Reminders'" ++ LFs ++
  "do shell script " ++ JS.quoted "rm -rf /".

(* ===================================================================== *)
(** ** Strings: general facts *)
(* ===================================================================== *)

Section StringFacts.

Lemma append_nil_r (s : string) : s ++ EmptyString = s.
Proof. induction s as [|c s IH]; simpl; [reflexivity | now rewrite IH]. Qed.

Lemma append_assoc (a b c : string) : (a ++ b) ++ c = a ++ (b ++ c).
Proof. induction a as [|x a IH]; simpl; [reflexivity | now rewrite IH]. Qed.

Lemma length_append (a b : string) :
  String.length (a ++ b) = (String.length a + String.length b)%nat.
Proof. induction a as [|x a IH]; simpl; [reflexivity | now rewrite IH]. Qed.

Lemma chars_append (a b : string) : chars (a ++ b) = (chars a ++ chars b)%list.
Proof. induction a as [|x a IH]; simpl; [reflexivity | now rewrite IH]. Qed.

Lemma toLowerCase_append (a b : string) :
  JS.toLowerCase (a ++ b) = JS.toLowerCase a ++ JS.toLowerCase b.
Proof. induction a as [|x a IH]; simpl; [reflexivity | now rewrite IH]. Qed.

Lemma toLowerCase_length (a : string) :
  String.length (JS.toLowerCase a) = String.length a.
Proof. induction a as [|x a IH]; simpl; [reflexivity | now rewrite IH]. Qed.

Lemma rev_append (a b : string) : JS.rev (a ++ b) = JS.rev b ++ JS.rev a.
Proof.
  induction a as [|x a IH]; simpl.
  - now rewrite append_nil_r.
  - now rewrite IH, append_assoc.
Qed.

Lemma rev_involutive (a : string) : JS.rev (JS.rev a) = a.
Proof.
  induction a as [|x a IH]; simpl; [reflexivity|].
  now rewrite rev_append, IH.
Qed.

Lemma chars_rev (a : string) : chars (JS.rev a) = List.rev (chars a).
Proof.
  induction a as [|x a IH]; simpl; [reflexivity|].
  now rewrite chars_append, IH.
Qed.

Lemma rev_empty (a : string) : JS.rev a = EmptyString -> a = EmptyString.
Proof.
  intro H. rewrite <- (rev_involutive a), H. reflexivity.
Qed.

(** [trimStart] leaves nothing exactly on blank texts. *)
Lemma trimStart_empty (s : string) :
  JS.trimStart s = EmptyString <-> blank s = true.
Proof.
  unfold blank. induction s as [|c s IH]; simpl.
  - tauto.
  - destruct (JS.isWhiteSpace c); simpl; [exact IH|].
    split; discriminate.
Qed.

Lemma blank_append (a b : string) : blank (a ++ b) = blank a && blank b.
Proof. unfold blank. now rewrite chars_append, forallb_app. Qed.

Lemma blank_rev (a : string) : blank (JS.rev a) = blank a.
Proof.
  induction a as [|c a IH]; simpl; [reflexivity|].
  rewrite blank_append, IH. unfold blank at 2 3. simpl.
  rewrite andb_true_r. apply andb_comm.
Qed.

(** What [trimStart] keeps is a suffix that is blank exactly when the whole
    text is. *)
Lemma blank_trimStart (s : string) : blank (JS.trimStart s) = blank s.
Proof.
  induction s as [|c s IH]; simpl; [reflexivity|].
  destruct (JS.isWhiteSpace c) eqn:E.
  - rewrite IH. unfold blank. simpl. now rewrite E.
  - reflexivity.
Qed.

Lemma trim_empty (s : string) : JS.trim s = EmptyString <-> blank s = true.
Proof.
  unfold JS.trim, JS.trimEnd. split.
  - intro H. apply rev_empty in H. apply trimStart_empty in H.
    now rewrite blank_rev, blank_trimStart in H.
  - intro H.
    assert (E : JS.trimStart (JS.rev (JS.trimStart s)) = EmptyString).
    { apply trimStart_empty. now rewrite blank_rev, blank_trimStart. }
    now rewrite E.
Qed.

Lemma length_zero (s : string) : JS.length s = 0 <-> s = EmptyString.
Proof.
  unfold JS.length. destruct s; simpl; split; intro H;
    try reflexivity; try discriminate; lia.
Qed.

(** The guard of layer 1 is the blank test. *)
Lemma layer1_blank (script : string) :
  String.eqb script EmptyString || (JS.length (JS.trim script) =? 0)
  = blank script.
Proof.
  destruct (blank script) eqn:B.
  - apply trim_empty in B. rewrite B. simpl. apply orb_true_r.
  - apply orb_false_iff. split.
    + apply String.eqb_neq. intros ->. discriminate.
    + apply Z.eqb_neq. intro H. apply length_zero, trim_empty in H. congruence.
Qed.

Lemma arrayIncludes_In (l : list string) (x : string) :
  JS.arrayIncludes l x = true <-> In x l.
Proof.
  induction l as [|y l IH]; simpl.
  - split; [discriminate | tauto].
  - rewrite orb_true_iff, IH, String.eqb_eq. tauto.
Qed.

End StringFacts.

(* ===================================================================== *)
(** ** The validator, layer by layer *)
(* ===================================================================== *)

Section ValidatorLayers.

Variables (script targetApp : string).

Lemma gtb_false (a b : Z) : a <= b -> (a >? b) = false.
Proof. intro H. rewrite Z.gtb_ltb. apply Z.ltb_ge. exact H. Qed.

Lemma validate_blank :
  blank script = true ->
  validateScript script targetApp = Throw (SecurityError msgEmpty None).
Proof.
  intro B. unfold validateScript. now rewrite layer1_blank, B.
Qed.

Lemma validate_too_long :
  blank script = false -> maxLength < JS.length script ->
  validateScript script targetApp =
  Throw (SecurityError msgTooLong
           (Some [("actualLength", DNum (JS.length script))])).
Proof.
  intros B L. unfold validateScript. rewrite layer1_blank, B. simpl.
  assert (G : (JS.length script >? maxLength) = true)
    by (rewrite Z.gtb_ltb; now apply Z.ltb_lt).
  now rewrite G.
Qed.

Hypothesis Hnonblank : blank script = false.
Hypothesis Hlength : JS.length script <= maxLength.

Lemma validate_not_allowed :
  isAllowedApp targetApp = false ->
  validateScript script targetApp =
  Throw (SecurityError (msgNotAllowed targetApp)
           (Some [("app", DStr targetApp);
                  ("allowedApps", DStrArray ALLOWED_APPS)])).
Proof.
  intro A. unfold validateScript.
  now rewrite layer1_blank, Hnonblank, (gtb_false _ _ Hlength), A.
Qed.

Hypothesis Hallowed : isAllowedApp targetApp = true.

Lemma validate_mismatch :
  scriptTargetsApp script targetApp = false ->
  validateScript script targetApp =
  Throw (SecurityError (msgMismatch targetApp) (Some [("app", DStr targetApp)])).
Proof.
  intro T. unfold validateScript.
  now rewrite layer1_blank, Hnonblank, (gtb_false _ _ Hlength), Hallowed, T.
Qed.

Hypothesis Htargets : scriptTargetsApp script targetApp = true.

Lemma validate_forbidden (p : string) :
  findForbiddenPattern script = Some p ->
  validateScript script targetApp =
  Throw (SecurityError (msgForbidden p)
           (Some [("pattern", DStr p); ("app", DStr targetApp)])).
Proof.
  intro F. unfold validateScript.
  now rewrite layer1_blank, Hnonblank, (gtb_false _ _ Hlength), Hallowed,
    Htargets, F.
Qed.

Hypothesis Hclean : findForbiddenPattern script = None.


Lemma validate_accept :
  startsWithTellApplication script = true ->
  validateScript script targetApp = Ok tt.
Proof.
  intro S. unfold validateScript.
  now rewrite layer1_blank, Hnonblank, (gtb_false _ _ Hlength), Hallowed,
    Htargets, Hclean, S.
Qed.

End ValidatorLayers.


(** C3. For every script that is not blank and within the maximum length,
    and every declared application that is not a member of ALLOWED_APPS,
    validateScript throws the SecurityError of the allowed-list check.  The
    error is fixed by the declared application alone: whether the script
    also fails the self-consistency scan, holds a forbidden pattern or lacks
    the opening clause has no influence on it. *)
Theorem C3_not_allowed_short_circuits (script targetApp : string) :
  blank script = false ->
  JS.length script <= maxLength ->
  ~ In targetApp ALLOWED_APPS ->
  validateScript script targetApp =
  Throw (SecurityError (msgNotAllowed targetApp)
           (Some [("app", DStr targetApp);
                  ("allowedApps", DStrArray ALLOWED_APPS)])).
Proof.
  intros B L A. apply validate_not_allowed; trivial.
  destruct (isAllowedApp targetApp) eqn:E; [|reflexivity].
  apply arrayIncludes_In in E. contradiction.
Qed.

(** A script that breaks layers 4, 5 and 6 at once, declared for an
    application outside the list. *)
Lemma C3_witness :
  let script := "do shell script " ++ JS.quoted "rm -rf /" in
  scriptTargetsApp script "Terminal" = false /\
  findForbiddenPattern script = Some "do shell script" /\
  startsWithTellApplication script = false /\
  validateScript script "Terminal" =
  Throw (SecurityError (msgNotAllowed "Terminal")
           (Some [("app", DStr "Terminal");
                  ("allowedApps", DStrArray ALLOWED_APPS)])).
Proof.
  intro script.
  split; [reflexivity | split; [reflexivity | split; [reflexivity|]]].
  apply (C3_not_allowed_short_circuits script "Terminal").
  - reflexivity.
  - vm_compute. discriminate.
  - vm_compute. intuition discriminate.
Defined.


(* ===================================================================== *)
(** ** Escaping *)
(* ===================================================================== *)

Lemma replaceAll_append (c : ascii) (r a b : string) :
  JS.replaceAll c r (a ++ b) = JS.replaceAll c r a ++ JS.replaceAll c r b.
Proof.
  induction a as [|x a IH]; simpl; [reflexivity|].
  destruct (Ascii.eqb x c); simpl; rewrite IH; [|reflexivity].
  now rewrite append_assoc.
Qed.

Lemma escape_flatMap (s : string) :
  escapeAppleScriptString s = flatMap escapeChar s.
Proof.
  unfold escapeAppleScriptString.
  induction s as [|c s IH]; simpl; [reflexivity|].
  unfold escapeChar.
  destruct (Ascii.eqb_spec c JS.BACKSLASH) as [->|Hb]; simpl.
  - now rewrite IH.
  - destruct (Ascii.eqb_spec c JS.DQUOTE) as [->|Hq]; simpl; now rewrite IH.
Qed.

Lemma sanitize_escapeChar (c : ascii) :
  JS.replaceAll JS.LF (String JS.BACKSLASH "n") (escapeChar c) = sanitizeChar c.
Proof.
  unfold sanitizeChar, escapeChar.
  destruct (Ascii.eqb_spec c JS.BACKSLASH) as [->|Hb]; [reflexivity|].
  destruct (Ascii.eqb_spec c JS.DQUOTE) as [->|Hq]; [reflexivity|].
  simpl. destruct (Ascii.eqb c JS.LF); reflexivity.
Qed.

Lemma sanitize_flatMap (s : string) :
  sanitizeForAppleScript s = flatMap sanitizeChar s.
Proof.
  unfold sanitizeForAppleScript.
  change (JS.replaceAll JS.LF (String JS.BACKSLASH "n")
            (escapeAppleScriptString s) = flatMap sanitizeChar s).
  rewrite escape_flatMap.
  induction s as [|c s IH]; simpl; [reflexivity|].
  now rewrite replaceAll_append, IH, sanitize_escapeChar.
Qed.

(** C7. Both escaping functions rewrite the input character by character:
    each backslash becomes two backslashes and each double quote becomes
    backslash-quote (sanitizeForAppleScript also turns a line feed into
    backslash-n), every other character is kept, and no character inserted
    by one substitution is rewritten by another.  The title of scenario E
    maps exactly to the expected text. *)
Theorem C7_escaping_is_one_pass :
  (forall s, escapeAppleScriptString s = flatMap escapeChar s) /\
  (forall s, sanitizeForAppleScript s = flatMap sanitizeChar s) /\
  escapeChar JS.BACKSLASH = String JS.BACKSLASH (String JS.BACKSLASH EmptyString) /\
  escapeChar JS.DQUOTE = String JS.BACKSLASH (String JS.DQUOTE EmptyString) /\
  (forall c, c <> JS.BACKSLASH -> c <> JS.DQUOTE ->
             escapeChar c = String c EmptyString) /\
  (forall c, c <> JS.LF -> sanitizeChar c = escapeChar c) /\
  escapeAppleScriptString scenarioE_title = scenarioE_escaped /\
  sanitizeForAppleScript scenarioE_title = scenarioE_escaped.
Proof.
  split; [exact escape_flatMap|].
  split; [exact sanitize_flatMap|].
  split; [reflexivity|].
  split; [reflexivity|].
  split.
  - intros c Hb Hq. unfold escapeChar.
    destruct (Ascii.eqb_spec c JS.BACKSLASH); [contradiction|].
    destruct (Ascii.eqb_spec c JS.DQUOTE); [contradiction|reflexivity].
  - split.
    + intros c Hl. unfold sanitizeChar.
      destruct (Ascii.eqb_spec c JS.LF); [contradiction|reflexivity].
    + split; reflexivity.
Qed.

(** C8 fails on the code. escapeAppleScriptString, the escaping that the
    Notes generator applies to params.body, leaves a line feed as it is:
    the body of two lines reaches the script with its raw line feed, whereas
    sanitizeForAppleScript turns the same line feed into backslash-n. *)
Theorem C8_newline_left_unescaped :
  let body := "Line 1" ++ LFs ++ "Line 2" in
  (forall s, escapeAppleScriptString (String JS.LF s)
             = String JS.LF (escapeAppleScriptString s)) /\
  escapeAppleScriptString body = body /\
  sanitizeForAppleScript body = "Line 1" ++ String JS.BACKSLASH "nLine 2" /\
  generateCreateNoteScript (CreateNoteParams.mk "T" body "Notes") =
    "tell application " ++ JS.quoted "Notes" ++ LFs ++
    "    set targetFolder to folder " ++ JS.quoted "Notes" ++ LFs ++
    "    set newNote to make new note at targetFolder with properties {body:"
      ++ JS.quoted ("<h1>T</h1><div>Line 1" ++ LFs ++ "Line 2</div>") ++ "}"
      ++ LFs ++
    "    return id of newNote & " ++ JS.quoted "|" ++ " & name of newNote & "
      ++ JS.quoted "|" ++ " & name of targetFolder" ++ LFs ++
    "end tell".
Proof.
  intro body. split; [|split; [|split]]; reflexivity.
Qed.

(* ===================================================================== *)
(** ** Priority codec *)
(* ===================================================================== *)

(** C10. The priority map sends none, low, medium and high to 0, 1, 5 and
    9, and decoding an encoded priority gives the priority back. *)
Theorem C10_priority_roundtrip (p : string) :
  In p PRIORITIES ->
  appleScriptToPriority (priorityToAppleScript p) = p /\
  map priorityToAppleScript PRIORITIES = [0; 1; 5; 9].
Proof.
  intro H. split; [|reflexivity].
  simpl in H.
  destruct H as [<-|[<-|[<-|[<-|[]]]]]; reflexivity.
Qed.

Lemma C10_witness :
  In "medium" PRIORITIES /\
  appleScriptToPriority (priorityToAppleScript "medium") = "medium".
Proof.
  assert (H : In "medium" PRIORITIES) by (simpl; tauto).
  split; [exact H|].
  exact (proj1 (C10_priority_roundtrip "medium" H)).
Defined.

(* ===================================================================== *)
(** ** The execution wrapper *)
(* ===================================================================== *)

Section Execution.

Variable h : Host.
Variable ctx : ExecutionContext.t.

Let script := ExecutionContext.script ctx.
Let app := ExecutionContext.app ctx.
Let operation := ExecutionContext.operation ctx.

(** The text that the timer rejects with is recognised by the handler. *)
Lemma timed_out_detected (ms : Z) :
  JS.includes (msgTimedOut ms) "timed out" = true.
Proof. reflexivity. Qed.

Lemma timerDelay_le (ms : Z) : 1 <= ms -> timerDelay ms <= ms.
Proof.
  intro H. unfold timerDelay.
  destruct ((1 <=? ms) && (ms <=? 2147483647)); lia.
Qed.

Lemma timeout_expired (ms : Z) (m : option string) :
  1 <= ms ->
  settlesWithin (runAppleScript h script) ms = false ->
  timeout (runAppleScript h script) ms m =
  Throw (match m with
         | Some t => t
         | None => "Timeout after " ++ JS.numberToString ms ++ "ms"
         end).
Proof.
  intro R. pose proof (timerDelay_le ms R) as D.
  unfold timeout, settlesWithin.
  destruct (runAppleScript h script) as [t o|]; [|reflexivity].
  intro H. apply Z.leb_gt in H.
  destruct (Z.leb_spec t (timerDelay ms)); [lia | reflexivity].
Qed.

(** A rejected validation: the error comes back as it is, after the
    validator ran and without any spawn. *)
Lemma execute_rejected (e : MacOSMCPError) :
  validationOn ctx = true ->
  validateScript script app = Throw e ->
  executeScript h ctx =
  ([EvLog Info "Executing AppleScript"; EvValidate script app;
    EvLog Error "Script execution failed"], Throw e).
Proof.
  unfold validationOn, executeScript, callValidateScript.
  fold script app operation. intros V R.
  destruct (ExecutionContext.skipValidation ctx) as [[|]|];
    try discriminate V; rewrite R; reflexivity.
Qed.

(** With validation on, the trace starts with the log line and the
    validator. *)
Lemma execute_validates_first :
  validationOn ctx = true ->
  exists rest,
    fst (executeScript h ctx) =
    EvLog Info "Executing AppleScript" :: EvValidate script app :: rest.
Proof.
  unfold validationOn, executeScript, callValidateScript, awaitEngine.
  fold script app operation. intros V.
  destruct (ExecutionContext.skipValidation ctx) as [[|]|];
    try discriminate V;
    destruct (validateScript script app) as [[]|e];
    try (eexists; reflexivity);
    destruct (timeout _ _ _) as [r|m]; simpl;
    try (eexists; reflexivity);
    repeat match goal with
           | |- context [if ?b then _ else _] => destruct b
           end; simpl; eexists; reflexivity.
Qed.

(** The engine is reached and the deadline passes. *)
Lemma execute_timeout :
  validationOn ctx = false \/ validateScript script app = Ok tt ->
  1 <= effectiveTimeout ctx ->
  settlesWithin (runAppleScript h script) (effectiveTimeout ctx) = false ->
  snd (executeScript h ctx) =
  Throw (ExecutionTimeoutError (effectiveTimeout ctx)
           [("app", DStr app); ("operation", DStr operation)]).
Proof.
  unfold validationOn, executeScript, callValidateScript, awaitEngine.
  fold script app operation (effectiveTimeout ctx).
  intros V R P. rewrite (timeout_expired _ _ R P).
  destruct (ExecutionContext.skipValidation ctx) as [[|]|];
    destruct V as [V|V]; try discriminate V; try rewrite V;
    cbn -[msgTimedOut JS.includes ExecutionTimeoutError];
    rewrite timed_out_detected; reflexivity.
Qed.

End Execution.

(** C2. On every request that does not set skipValidation, executeScript
    runs validateScript before anything else but its opening log line, so
    before any engine process is spawned.  When the validator rejects, the
    call throws the very error the validator produced, and no engine process
    is spawned during the call. *)
Theorem C2_rejection_precedes_engine (h : Host) (ctx : ExecutionContext.t) :
  validationOn ctx = true ->
  (exists rest,
     fst (executeScript h ctx) =
     EvLog Info "Executing AppleScript"
       :: EvValidate (ExecutionContext.script ctx) (ExecutionContext.app ctx)
       :: rest) /\
  (forall e,
     validateScript (ExecutionContext.script ctx) (ExecutionContext.app ctx)
       = Throw e ->
     snd (executeScript h ctx) = Throw e /\
     neverSpawns (fst (executeScript h ctx)) = true).
Proof.
  intro V. split.
  - now apply execute_validates_first.
  - intros e R. rewrite (execute_rejected h ctx e V R). split; reflexivity.
Qed.

(** Scenario B through the wrapper: the forbidden phrase inside a block
    that targets the declared application. *)
Lemma C2_witness :
  let script :=
    "tell application " ++ JS.quoted "Reminders" ++ LFs ++
    "    do shell script " ++ JS.quoted "rm -rf /" ++ LFs ++ "end tell" in
  let ctx := ExecutionContext.mk script "Reminders" "add" None None in
  let h := mkHost (fun _ => Settles 1 (Ok "done")) 1 in
  let e := SecurityError (msgForbidden "do shell script")
             (Some [("pattern", DStr "do shell script");
                    ("app", DStr "Reminders")]) in
  validationOn ctx = true /\
  snd (executeScript h ctx) = Throw e /\
  neverSpawns (fst (executeScript h ctx)) = true.
Proof.
  intros script ctx h e.
  split; [reflexivity|].
  exact (proj2 (C2_rejection_precedes_engine h ctx eq_refl) e eq_refl).
Defined.

(** C6. For a timeout in force that is a positive safe integer, which is
    ctx.timeout when given and 30000 otherwise: when the engine is reached
    (validation skipped or passed) and its promise does not settle within
    that timeout, executeScript throws an ExecutionTimeoutError whose
    timeout detail is that timeout. *)
Theorem C6_timeout_carries_configured_value
  (h : Host) (ctx : ExecutionContext.t) :
  1 <= effectiveTimeout ctx <= MAX_SAFE_INTEGER ->
  validationOn ctx = false \/
  validateScript (ExecutionContext.script ctx) (ExecutionContext.app ctx)
    = Ok tt ->
  settlesWithin (runAppleScript h (ExecutionContext.script ctx))
                (effectiveTimeout ctx) = false ->
  exists e,
    snd (executeScript h ctx) = Throw e /\
    name e = "ExecutionTimeoutError" /\
    code e = "EXECUTION_TIMEOUT" /\
    message e = msgTimedOut (effectiveTimeout ctx) /\
    carried "timeout" e = Some (DNum (effectiveTimeout ctx)) /\
    (forall t, ExecutionContext.timeout ctx = Some t ->
               carried "timeout" e = Some (DNum t)) /\
    (ExecutionContext.timeout ctx = None ->
     carried "timeout" e = Some (DNum 30000)).
Proof.
  intros [R _] V P. eexists.
  split; [exact (execute_timeout h ctx V R P)|].
  repeat split.
  - intros t Ht. unfold effectiveTimeout. now rewrite Ht.
  - intros Ht. unfold effectiveTimeout. now rewrite Ht.
Qed.

(** Scenario D: a timeout of 5 and an engine that never settles. *)
Lemma C6_witness :
  let script := "tell application " ++ JS.quoted "Notes" ++ LFs ++ "end tell" in
  let ctx := ExecutionContext.mk script "Notes" "list" (Some 5) None in
  let h := mkHost (fun _ => Never) 6 in
  exists e,
    snd (executeScript h ctx) = Throw e /\
    message e = "Script execution timed out after 5ms" /\
    carried "timeout" e = Some (DNum 5).
Proof.
  intros script ctx h.
  assert (R : 1 <= effectiveTimeout ctx <= MAX_SAFE_INTEGER)
    by (vm_compute; split; discriminate).
  destruct (C6_timeout_carries_configured_value h ctx R
              (or_intror eq_refl) eq_refl)
    as (e & He & _ & _ & Hm & Hc & _).
  exists e. split; [exact He|]. split; [exact Hm | exact Hc].
Defined.

(* ===================================================================== *)
(** ** Trimming a template *)
(* ===================================================================== *)

Lemma trimStart_append (x y : string) :
  blank x = false -> JS.trimStart (x ++ y) = JS.trimStart x ++ y.
Proof.
  unfold blank. induction x as [|c x IH]; simpl; [discriminate|].
  destruct (JS.isWhiteSpace c); simpl; [exact IH | reflexivity].
Qed.

Lemma trimEnd_append (a b : string) :
  blank b = false -> JS.trimEnd (a ++ b) = a ++ JS.trimEnd b.
Proof.
  intro B. unfold JS.trimEnd.
  rewrite rev_append, trimStart_append by now rewrite blank_rev.
  now rewrite rev_append, rev_involutive.
Qed.

Lemma isAppRunningScript_eq (appName : string) :
  isAppRunningScript appName = probeText appName.
Proof.
  unfold isAppRunningScript, probeText, JS.trim.
  assert (Q : forall r, JS.quoted appName ++ r
                        = String JS.DQUOTE EmptyString ++ appName
                          ++ String JS.DQUOTE EmptyString ++ r).
  { intro r. unfold JS.quoted. simpl. now rewrite append_assoc. }
  rewrite Q.
  change (JS.trimEnd
            (JS.trimStart
               (LFs ++ probeHead ++ appName ++ probeTail ++ LFs ++ "  "))
          = probeHead ++ appName ++ probeTail).
  change (JS.trimEnd (probeHead ++ appName ++ probeTail ++ LFs ++ "  ")
          = probeHead ++ appName ++ probeTail).
  rewrite <- (append_assoc probeHead appName).
  rewrite trimEnd_append by reflexivity.
  now rewrite append_assoc.
Qed.

(* ===================================================================== *)
(** ** Characters: case folding, white space, quotes *)
(* ===================================================================== *)

Section Characters.

Lemma allAscii_complete (c : ascii) : In c allAscii.
Proof.
  unfold allAscii. rewrite <- (ascii_nat_embedding c).
  apply in_map, in_seq. pose proof (nat_ascii_bounded c). lia.
Qed.

Lemma forall_ascii (P : ascii -> bool) :
  forallb P allAscii = true -> forall c, P c = true.
Proof.
  intros H c. rewrite forallb_forall in H. apply H, allAscii_complete.
Qed.

(** On Latin-1 the case folding of the [i] flag and [toLowerCase] identify
    the same pairs of characters. *)
Lemma charCI_lowerChar (p c : ascii) :
  Regex.charCI p c = Ascii.eqb (JS.lowerChar p) (JS.lowerChar c).
Proof.
  apply eqb_true_iff. revert c. apply forall_ascii. revert p.
  apply forall_ascii. vm_compute. reflexivity.
Qed.

Lemma isWhiteSpace_lowerChar (c : ascii) :
  JS.isWhiteSpace (JS.lowerChar c) = JS.isWhiteSpace c.
Proof.
  apply eqb_true_iff. revert c. apply forall_ascii. vm_compute. reflexivity.
Qed.

Lemma isQuote_lowerChar (c : ascii) :
  Regex.isQuote (JS.lowerChar c) = Regex.isQuote c.
Proof.
  apply eqb_true_iff. revert c. apply forall_ascii. vm_compute. reflexivity.
Qed.

Lemma quote_not_white (c : ascii) :
  Regex.isQuote c = true -> JS.isWhiteSpace c = false.
Proof.
  unfold Regex.isQuote. rewrite orb_true_iff, !Ascii.eqb_eq.
  intros [->| ->]; reflexivity.
Qed.

End Characters.

(* ===================================================================== *)
(** ** The pieces of the tell pattern *)
(* ===================================================================== *)

Section Scanning.

Variable p : ascii -> bool.

Lemma takeWhile_dropWhile (s : string) :
  Regex.takeWhile p s ++ Regex.dropWhile p s = s.
Proof.
  induction s as [|c s IH]; simpl; [reflexivity|].
  destruct (p c); simpl; [now rewrite IH | reflexivity].
Qed.

Lemma takeWhile_all (s : string) :
  forallb p (chars (Regex.takeWhile p s)) = true.
Proof.
  induction s as [|c s IH]; simpl; [reflexivity|].
  destruct (p c) eqn:E; simpl; [now rewrite E | reflexivity].
Qed.

Lemma dropWhile_append (w rest : string) :
  forallb p (chars w) = true -> headFails p rest ->
  Regex.dropWhile p (w ++ rest) = rest.
Proof.
  intros W R. induction w as [|c w IH]; simpl in *.
  - destruct rest as [|d rest]; simpl in *; [reflexivity | now rewrite R].
  - apply andb_true_iff in W as [-> W]. now apply IH.
Qed.

Lemma takeWhile_append (w rest : string) :
  forallb p (chars w) = true -> headFails p rest ->
  Regex.takeWhile p (w ++ rest) = w.
Proof.
  intros W R. induction w as [|c w IH]; simpl in *.
  - destruct rest as [|d rest]; simpl in *; [reflexivity | now rewrite R].
  - apply andb_true_iff in W as [-> W]. now rewrite IH.
Qed.

End Scanning.

Section TellPattern.

Lemma literalCI_sound (w : string) :
  forall s rest, Regex.literalCI w s = Some rest ->
                 exists t, s = t ++ rest /\ ciEq t w.
Proof.
  unfold ciEq. induction w as [|c w IH]; simpl; intros s rest H.
  - injection H as ->. now exists EmptyString.
  - destruct s as [|d s]; [discriminate|].
    destruct (Regex.charCI c d) eqn:E; [|discriminate].
    rewrite charCI_lowerChar in E. apply Ascii.eqb_eq in E.
    destruct (IH _ _ H) as (t & -> & Ht).
    exists (String d t). simpl. split; [reflexivity|]. now rewrite Ht, E.
Qed.

Lemma literalCI_complete (w : string) :
  forall t rest, ciEq t w -> Regex.literalCI w (t ++ rest) = Some rest.
Proof.
  unfold ciEq. induction w as [|c w IH]; intros [|d t] rest H;
    simpl in *; try discriminate; [reflexivity|].
  injection H as Hc Ht.
  rewrite charCI_lowerChar, <- Hc, Ascii.eqb_refl. now apply IH.
Qed.

Lemma spaces1_sound (s rest : string) :
  Regex.spaces1 s = Some rest -> exists w, s = w ++ rest /\ whites w.
Proof.
  unfold Regex.spaces1, whites. destruct s as [|c s]; [discriminate|].
  destruct (JS.isWhiteSpace c) eqn:E; [|discriminate].
  intro H. injection H as <-.
  exists (Regex.takeWhile JS.isWhiteSpace (String c s)). split.
  - exact (eq_sym (takeWhile_dropWhile JS.isWhiteSpace (String c s))).
  - split; [simpl; rewrite E; discriminate
           | exact (takeWhile_all JS.isWhiteSpace (String c s))].
Qed.

Lemma spaces1_complete (w rest : string) :
  whites w -> headFails JS.isWhiteSpace rest ->
  Regex.spaces1 (w ++ rest) = Some rest.
Proof.
  unfold whites, blank. intros [N B] R.
  destruct w as [|c w]; [contradiction|].
  pose proof (dropWhile_append JS.isWhiteSpace _ _ B R) as D.
  unfold Regex.spaces1. simpl in *.
  apply andb_true_iff in B as [E _]. rewrite E in *. now rewrite D.
Qed.

Lemma quote1_sound (s rest : string) :
  Regex.quote1 s = Some rest ->
  exists q, s = String q rest /\ Regex.isQuote q = true.
Proof.
  destruct s as [|c s]; simpl; [discriminate|].
  destruct (Regex.isQuote c) eqn:E; [|discriminate].
  intro H. injection H as <-. now exists c.
Qed.

Lemma name1_sound (s x rest : string) :
  Regex.name1 s = Some (x, rest) ->
  s = x ++ rest /\ x <> EmptyString /\ noQuotes x = true.
Proof.
  unfold Regex.name1, noQuotes. destruct s as [|c s]; [discriminate|].
  destruct (Regex.notQuote c) eqn:E; [|discriminate].
  intro H. injection H as <- <-. split; [|split].
  - exact (eq_sym (takeWhile_dropWhile Regex.notQuote (String c s))).
  - simpl. rewrite E. discriminate.
  - exact (takeWhile_all Regex.notQuote (String c s)).
Qed.

Lemma name1_complete (x rest : string) :
  x <> EmptyString -> noQuotes x = true -> headFails Regex.notQuote rest ->
  Regex.name1 (x ++ rest) = Some (x, rest).
Proof.
  unfold noQuotes. intros N Q R.
  pose proof (takeWhile_append Regex.notQuote _ _ Q R) as T.
  pose proof (dropWhile_append Regex.notQuote _ _ Q R) as D.
  destruct x as [|c x]; [contradiction|].
  unfold Regex.name1. rewrite T, D. simpl in *.
  apply andb_true_iff in Q as [-> _]. reflexivity.
Qed.

(** A text equal to a word up to case starts as the word does. *)
Lemma ciEq_head_not_white (a w rest : string) (c : ascii) :
  ciEq a (String c w) -> JS.isWhiteSpace c = false ->
  headFails JS.isWhiteSpace (a ++ rest).
Proof.
  unfold ciEq. destruct a as [|d a]; simpl; [discriminate|].
  intros H W. injection H as Hd _.
  rewrite <- isWhiteSpace_lowerChar, Hd, isWhiteSpace_lowerChar. exact W.
Qed.

Lemma tellAt_sound (s x : string) (n : nat) :
  Regex.tellAt s = Some (x, n) ->
  exists clause post,
    s = clause ++ post /\ OpeningClause x clause /\ n = String.length clause.
Proof.
  unfold Regex.tellAt, Regex.tellHead.
  destruct (Regex.literalCI "tell" s) as [s1|] eqn:E1; [|discriminate].
  destruct (Regex.spaces1 s1) as [s2|] eqn:E2; [|discriminate].
  destruct (Regex.literalCI "application" s2) as [s3|] eqn:E3; [|discriminate].
  destruct (Regex.spaces1 s3) as [s4|] eqn:E4; [|discriminate].
  destruct (Regex.quote1 s4) as [s5|] eqn:E5; [|discriminate].
  destruct (Regex.name1 s5) as [[app s6]|] eqn:E6; [|discriminate].
  destruct (Regex.quote1 s6) as [s7|] eqn:E7; [|discriminate].
  intro H. injection H as <- <-.
  apply literalCI_sound in E1 as (t & -> & Ht).
  apply spaces1_sound in E2 as (w1 & -> & Hw1).
  apply literalCI_sound in E3 as (a & -> & Ha).
  apply spaces1_sound in E4 as (w2 & -> & Hw2).
  apply quote1_sound in E5 as (q1 & -> & Hq1).
  apply name1_sound in E6 as (-> & Hn & Hq).
  apply quote1_sound in E7 as (q2 & -> & Hq2).
  exists (t ++ w1 ++ a ++ w2 ++ String q1 (app ++ String q2 EmptyString)), s7.
  split; [|split].
  - repeat (rewrite ?append_assoc; simpl). reflexivity.
  - now constructor.
  - repeat (rewrite ?length_append; simpl). lia.
Qed.

Lemma tellAt_complete (x clause post : string) :
  OpeningClause x clause ->
  Regex.tellAt (clause ++ post) = Some (x, String.length clause).
Proof.
  intros [t w1 a w2 q1 q2 Ht Hw1 Ha Hw2 Hq1 Hq2 Hn Hq].
  assert (S : (t ++ w1 ++ a ++ w2 ++ String q1 (x ++ String q2 EmptyString))
              ++ post
              = t ++ w1 ++ a ++ w2 ++ String q1 (x ++ String q2 post))
    by (repeat (rewrite ?append_assoc; simpl); reflexivity).
  unfold Regex.tellAt, Regex.tellHead. rewrite S.
  rewrite (literalCI_complete "tell" t _ Ht).
  rewrite (spaces1_complete w1 _ Hw1)
    by (eapply ciEq_head_not_white; [exact Ha | reflexivity]).
  rewrite (literalCI_complete "application" a _ Ha).
  rewrite (spaces1_complete w2 _ Hw2) by (simpl; now apply quote_not_white).
  simpl Regex.quote1 at 1. rewrite Hq1.
  rewrite (name1_complete x _ Hn Hq)
    by (simpl; unfold Regex.notQuote; now rewrite Hq2).
  simpl Regex.quote1. rewrite Hq2. f_equal. f_equal.
  repeat (rewrite ?length_append; simpl). lia.
Qed.

End TellPattern.

(* ===================================================================== *)
(** ** The scan of layer 4 *)
(* ===================================================================== *)

Section TargetScan.

(** Every capture that the repeated search yields is the name of an
    opening clause found at some index of the script. *)
Lemma matchAllFrom_sound (s : string) :
  forall k x, In x (Regex.matchAllFrom k s) ->
  exists pre suf n, s = pre ++ suf /\ Regex.tellAt suf = Some (x, n).
Proof.
  induction s as [|c s IH]; intros k x H; [destruct k; contradiction|].
  assert (Later : forall j, In x (Regex.matchAllFrom j s) ->
            exists pre suf n,
              String c s = pre ++ suf /\ Regex.tellAt suf = Some (x, n)).
  { intros j Hj. destruct (IH _ _ Hj) as (pre & suf & n & -> & T).
    now exists (String c pre), suf, n. }
  destruct k as [|k]; [|now apply (Later k)].
  cbn [Regex.matchAllFrom] in H.
  destruct (Regex.tellAt (String c s)) as [[app len]|] eqn:T.
  - destruct H as [<-|H]; [|now apply (Later (len - 1)%nat)].
    now exists EmptyString, (String c s), len.
  - now apply (Later 0%nat).
Qed.

Lemma scriptTargetsApp_matches (script targetApp : string) :
  scriptTargetsApp script targetApp = true <->
  exists x, In x (Regex.matchAll script) /\ ciEq x targetApp.
Proof.
  unfold scriptTargetsApp, ciEq. rewrite existsb_exists. split.
  - intros (x & I & H). apply andb_true_iff in H as [_ H].
    apply String.eqb_eq in H. now exists x.
  - intros (x & I & H). exists x. split; [exact I|].
    apply andb_true_iff. split; [|now apply String.eqb_eq].
    destruct (matchAllFrom_sound _ _ _ I) as (pre & suf & n & _ & T).
    destruct (tellAt_sound _ _ _ T) as (cl & post & _ & [] & _).
    apply negb_true_iff. now apply String.eqb_neq.
Qed.

Lemma scriptTargetsApp_sound (script targetApp : string) :
  scriptTargetsApp script targetApp = true -> namesApp script targetApp.
Proof.
  intro H. apply scriptTargetsApp_matches in H as (x & I & H).
  destruct (matchAllFrom_sound _ _ _ I) as (pre & suf & n & -> & T).
  destruct (tellAt_sound _ _ _ T) as (cl & post & -> & O & _).
  now exists pre, cl, post, x.
Qed.

Lemma anyClause_spec (p : string -> bool) (s : string) :
  anyClause p s = true <->
  exists pre suf x n,
    s = pre ++ suf /\ Regex.tellAt suf = Some (x, n) /\ p x = true.
Proof.
  induction s as [|c s IH].
  - simpl. split; [discriminate|].
    intros (pre & suf & x & n & E & T & _).
    destruct pre; destruct suf; discriminate.
  - cbn [anyClause]. rewrite orb_true_iff, IH. split.
    + intros [H|(pre & suf & x & n & -> & T & P)].
      * destruct (Regex.tellAt (String c s)) as [[x n]|] eqn:T;
          [|discriminate].
        now exists EmptyString, (String c s), x, n.
      * now exists (String c pre), suf, x, n.
    + intros (pre & suf & x & n & E & T & P).
      destruct pre as [|d pre]; simpl in E.
      * left. subst suf. now rewrite T.
      * right. injection E as _ ->. now exists pre, suf, x, n.
Qed.

(** [namesAppb] decides [namesApp]. *)
Lemma namesApp_decide (script app : string) :
  namesApp script app <-> namesAppb script app = true.
Proof.
  unfold namesApp, namesAppb, ciEq. rewrite anyClause_spec. split.
  - intros (pre & cl & post & x & -> & O & H).
    exists pre, (cl ++ post), x, (String.length cl).
    split; [reflexivity|]. split; [now apply tellAt_complete|].
    now apply String.eqb_eq.
  - intros (pre & suf & x & n & -> & T & H).
    destruct (tellAt_sound _ _ _ T) as (cl & post & -> & O & _).
    exists pre, cl, post, x. split; [reflexivity|]. split; [exact O|].
    now apply String.eqb_eq.
Qed.

End TargetScan.

(* ===================================================================== *)
(** ** The scan of layer 5 *)
(* ===================================================================== *)

Section ForbiddenScan.

Lemma prefix_spec (a : string) :
  forall s, prefix a s = true <-> exists post, s = a ++ post.
Proof.
  induction a as [|c a IH]; intros s.
  - destruct s; simpl; split; eauto.
  - destruct s as [|d s]; simpl.
    + split; [discriminate | intros (post & H); discriminate].
    + destruct (ascii_dec c d) as [->|N].
      * rewrite IH. split; intros (post & H); exists post; congruence.
      * split; [discriminate | intros (post & H); congruence].
Qed.

Lemma includes_spec (sub : string) :
  forall s, JS.includes s sub = true <-> exists pre post, s = pre ++ sub ++ post.
Proof.
  induction s as [|c s IH]; cbn [JS.includes]; rewrite orb_true_iff, prefix_spec.
  - split.
    + intros [(post & H)|H]; [|discriminate]. now exists EmptyString, post.
    + intros (pre & post & H). left.
      destruct pre; [now exists post | discriminate].
  - rewrite IH. split.
    + intros [(post & H)|(pre & post & ->)].
      * now exists EmptyString, post.
      * now exists (String c pre), post.
    + intros (pre & post & H). destruct pre as [|d pre]; simpl in H.
      * left. now exists post.
      * right. injection H as _ ->. now exists pre, post.
Qed.

Lemma toLowerCase_split (a b : string) :
  forall s, JS.toLowerCase s = a ++ b ->
  exists s1 s2, s = s1 ++ s2 /\ JS.toLowerCase s1 = a /\ JS.toLowerCase s2 = b.
Proof.
  induction a as [|c a IH]; intros s H; simpl in H.
  - now exists EmptyString, s.
  - destruct s as [|d s]; [discriminate|]. simpl in H. injection H as Hc H.
    destruct (IH _ H) as (s1 & s2 & -> & <- & <-).
    exists (String d s1), s2. simpl. now rewrite Hc.
Qed.

(** The test of [findForbiddenPattern] for one pattern is the occurrence of
    the pattern up to case. *)
Lemma includes_ciOccurs (p script : string) :
  JS.includes (JS.toLowerCase script) (JS.toLowerCase p) = true <->
  ciOccurs p script.
Proof.
  unfold ciOccurs, ciEq. rewrite includes_spec. split.
  - intros (pre & post & H).
    apply toLowerCase_split in H as (s1 & s23 & -> & _ & H).
    apply toLowerCase_split in H as (s2 & s3 & -> & H & _).
    now exists s1, s2, s3.
  - intros (pre & mid & post & -> & H).
    exists (JS.toLowerCase pre), (JS.toLowerCase post).
    now rewrite !toLowerCase_append, H.
Qed.

Lemma find_first {A : Type} (f : A -> bool) (l : list A) (x : A) :
  find f l = Some x ->
  exists before after,
    l = (before ++ x :: after)%list /\ f x = true /\
    forall q, In q before -> f q = false.
Proof.
  induction l as [|y l IH]; simpl; [discriminate|].
  destruct (f y) eqn:E.
  - intro H. injection H as ->. exists [], l. simpl. tauto.
  - intro H. destruct (IH H) as (before & after & -> & Fx & B).
    exists (y :: before), after. split; [reflexivity|]. split; [exact Fx|].
    intros q [<-|I]; [exact E | now apply B].
Qed.

Lemma find_hits {A : Type} (f : A -> bool) (l : list A) (x : A) :
  In x l -> f x = true -> exists y, find f l = Some y.
Proof.
  intros I F. destruct (find f l) as [y|] eqn:E; [now exists y|].
  rewrite (find_none f l E x I) in F. discriminate.
Qed.

(** [findForbiddenPatternIn] returns the first pattern of the list that
    occurs in the script up to case, if there is one. *)
Lemma findForbidden_first (patterns : list string) (script p : string) :
  findForbiddenPatternIn patterns script = Some p ->
  exists before after,
    patterns = (before ++ p :: after)%list /\ ciOccurs p script /\
    forall q, In q before -> ~ ciOccurs q script.
Proof.
  unfold findForbiddenPatternIn. intro H.
  apply find_first in H as (before & after & -> & F & B).
  exists before, after. split; [reflexivity|].
  split; [now apply includes_ciOccurs|].
  intros q I O. apply includes_ciOccurs in O. rewrite (B q I) in O.
  discriminate.
Qed.

Lemma findForbidden_hits (patterns : list string) (script p : string) :
  In p patterns -> ciOccurs p script ->
  exists q, findForbiddenPatternIn patterns script = Some q.
Proof.
  intros I O. unfold findForbiddenPatternIn.
  apply (find_hits _ _ p I). now apply includes_ciOccurs.
Qed.

End ForbiddenScan.

(** C1 as stated fails.  In [nestedClauseScript] an opening clause naming
    Reminders occurs, and so does the pattern do shell script; but the
    clause lies inside the text that the first match of the repeated search
    takes as its name, the search resumes after it, and layer 4 rejects the
    script with the app-mismatch reason before the forbidden-pattern scan
    runs. *)
Lemma C1_counterexample :
  In "Reminders" ALLOWED_APPS /\
  blank nestedClauseScript = false /\
  JS.length nestedClauseScript <= maxLength /\
  namesApp nestedClauseScript "Reminders" /\
  In "do shell script" FORBIDDEN_PATTERNS /\
  ciOccurs "do shell script" nestedClauseScript /\
  Regex.matchAll nestedClauseScript = ["tell application "] /\
  validateScript nestedClauseScript "Reminders" =
    Throw (SecurityError (msgMismatch "Reminders")
             (Some [("app", DStr "Reminders")])) /\
  (forall p d, validateScript nestedClauseScript "Reminders" <>
               Throw (SecurityError (msgForbidden p) d)).
Proof.
  split; [simpl; tauto|].
  split; [reflexivity|].
  split; [vm_compute; discriminate|].
  split; [apply namesApp_decide; vm_compute; reflexivity|].
  split; [simpl; tauto|].
  split.
  { exists ("tell application " ++ JS.quoted "tell application 'Reminders'"
            ++ LFs),
           "do shell script",
           (" " ++ JS.quoted "rm -rf /").
    split; reflexivity. }
  split; [reflexivity|].
  split; [reflexivity|].
  intros p d H. vm_compute in H. discriminate H.
Qed.

(** C1, amended. For a declared application in ALLOWED_APPS and a script
    that is not blank, within the maximum length, and in which the repeated
    search of layer 4 (from left to right, each search resuming where the
    match before it ended) finds an opening clause naming the declared
    application up to case: if some member of FORBIDDEN_PATTERNS occurs in the script up to
    case, validateScript throws the forbidden-pattern SecurityError, and the
    pattern it reports is the first member of FORBIDDEN_PATTERNS, in list
    order, that occurs in the script. *)
Theorem C1_first_forbidden_pattern_reported (script targetApp : string) :
  In targetApp ALLOWED_APPS ->
  blank script = false ->
  JS.length script <= maxLength ->
  (exists x, In x (Regex.matchAll script) /\ ciEq x targetApp) ->
  (exists p, In p FORBIDDEN_PATTERNS /\ ciOccurs p script) ->
  exists p before after,
    FORBIDDEN_PATTERNS = (before ++ p :: after)%list /\
    ciOccurs p script /\
    (forall q, In q before -> ~ ciOccurs q script) /\
    validateScript script targetApp =
    Throw (SecurityError (msgForbidden p)
             (Some [("pattern", DStr p); ("app", DStr targetApp)])).
Proof.
  intros A B L T (p0 & I & O).
  apply arrayIncludes_In in A. apply scriptTargetsApp_matches in T.
  destruct (findForbidden_hits _ _ _ I O) as (p & F).
  destruct (findForbidden_first _ _ _ F) as (before & after & E & Op & Bf).
  exists p, before, after. repeat split; trivial.
  now apply validate_forbidden.
Qed.

(** Scenario B. The hypothesis is discharged with the third pattern of the
    list; the first one occurs as well. *)
Lemma C1_witness :
  let script :=
    "tell application " ++ JS.quoted "Reminders" ++ LFs ++
    "    do shell script " ++ JS.quoted "rm -rf /" ++ LFs ++ "end tell" in
  exists p before after,
    FORBIDDEN_PATTERNS = (before ++ p :: after)%list /\
    ciOccurs p script /\
    (forall q, In q before -> ~ ciOccurs q script) /\
    validateScript script "Reminders" =
    Throw (SecurityError (msgForbidden p)
             (Some [("pattern", DStr p); ("app", DStr "Reminders")])).
Proof.
  intro script.
  apply (C1_first_forbidden_pattern_reported script "Reminders").
  - simpl. tauto.
  - reflexivity.
  - vm_compute. discriminate.
  - exists "Reminders". split; [vm_compute; tauto | reflexivity].
  - exists "rm -rf". split; [simpl; tauto|].
    exists ("tell application " ++ JS.quoted "Reminders" ++ LFs ++
            "    do shell script " ++ String JS.DQUOTE EmptyString),
           "rm -rf",
           (" /" ++ String JS.DQUOTE EmptyString ++ LFs ++ "end tell").
    split; reflexivity.
Defined.

(** C4. For a script that is not blank and within the maximum length, and
    a declared application in ALLOWED_APPS: if no opening clause anywhere in
    the script names the declared application up to case, validateScript
    throws the app-mismatch SecurityError. *)
Theorem C4_mismatch_rejected (script targetApp : string) :
  blank script = false ->
  JS.length script <= maxLength ->
  In targetApp ALLOWED_APPS ->
  ~ namesApp script targetApp ->
  validateScript script targetApp =
  Throw (SecurityError (msgMismatch targetApp) (Some [("app", DStr targetApp)])).
Proof.
  intros B L A N. apply arrayIncludes_In in A.
  apply validate_mismatch; trivial.
  destruct (scriptTargetsApp script targetApp) eqn:T; [|reflexivity].
  apply scriptTargetsApp_sound in T. contradiction.
Qed.

(** Scenario C: the only opening clause names Calendar, the declared
    application is Reminders. *)
Lemma C4_witness :
  let script :=
    "tell application " ++ JS.quoted "Calendar" ++ LFs ++
    "    -- do something" ++ LFs ++ "end tell" in
  Regex.matchAll script = ["Calendar"] /\
  validateScript script "Reminders" =
  Throw (SecurityError (msgMismatch "Reminders")
           (Some [("app", DStr "Reminders")])).
Proof.
  intro script. split; [reflexivity|].
  apply (C4_mismatch_rejected script "Reminders").
  - reflexivity.
  - vm_compute. discriminate.
  - simpl. tauto.
  - intro N. apply namesApp_decide in N. vm_compute in N. discriminate N.
Defined.

(* ===================================================================== *)
(** ** The running-application probe *)
(* ===================================================================== *)

Section Probe.

Variable h : Host.

Lemma matchAll_head (s x : string) (n : nat) :
  Regex.tellAt s = Some (x, n) -> exists rest, Regex.matchAll s = x :: rest.
Proof.
  destruct s as [|c s]; [discriminate|]. intro T.
  unfold Regex.matchAll. cbn [Regex.matchAllFrom]. rewrite T.
  eexists. reflexivity.
Qed.

Lemma probe_opens_System_Events (appName : string) :
  exists rest,
    Regex.matchAll (isAppRunningScript appName) = "System Events" :: rest.
Proof.
  rewrite isAppRunningScript_eq.
  set (clause := "tell application " ++ JS.quoted "System Events").
  set (post := LFs ++ "  return (name of processes) contains "
                 ++ String JS.DQUOTE EmptyString ++ appName ++ probeTail).
  change (probeText appName) with (clause ++ post).
  apply (matchAll_head _ _ (String.length clause)).
  apply tellAt_complete.
  apply (OpeningClause_intro "System Events" "tell" " " "application" " "
           JS.DQUOTE JS.DQUOTE); try reflexivity;
    try (split; [discriminate | reflexivity]); discriminate.
Qed.

Lemma probe_rejected (appName : string) :
  exists e,
    validateScript (isAppRunningScript appName) "System Events" = Throw e.
Proof.
  rewrite isAppRunningScript_eq.
  assert (B : blank (probeText appName) = false) by reflexivity.
  destruct (Z_le_gt_dec (JS.length (probeText appName)) maxLength) as [L|L].
  - eexists. now apply validate_not_allowed.
  - eexists. apply validate_too_long; [exact B | lia].
Qed.

(** A call that skips validation logs, warns, spawns the engine and logs
    the outcome: the validator does not run. *)
Lemma execute_skipping (ctx : ExecutionContext.t) :
  validationOn ctx = false ->
  exists lvl msg,
    fst (executeScript h ctx) =
    [EvLog Info "Executing AppleScript";
     EvLog Warn "Security validation skipped";
     EvSpawn (ExecutionContext.script ctx); EvLog lvl msg].
Proof.
  unfold validationOn, executeScript, awaitEngine. intro V.
  destruct (ExecutionContext.skipValidation ctx) as [[|]|];
    try discriminate V.
  destruct (timeout _ _ _) as [r|m]; cbn -[JS.includes];
    repeat match goal with
           | |- context [if ?b then _ else _] => destruct b
           end; cbn; eexists; eexists; reflexivity.
Qed.

Lemma isAppRunning_unfold (appName : string) :
  isAppRunning h appName =
  match executeScript h (isAppRunningContext appName) with
  | (tr, Ok result) => (tr, Ok (String.eqb (JS.trim result) "true"))
  | (tr, Throw _) => (tr, Ok false)
  end.
Proof.
  unfold isAppRunning, isAppRunningContext.
  destruct (executeScript h _) as [tr [r|e]]; simpl;
    now rewrite app_nil_r.
Qed.

End Probe.

(** C9. For every application name: the probe script of isAppRunning opens
    System Events, a name that is not in ALLOWED_APPS and is in
    FORBIDDEN_PATTERNS; validateScript rejects that script for the declared
    application System Events; the call sets skipValidation, so the
    validator is not run and the engine is spawned with the probe script;
    and isAppRunning returns a boolean on every outcome of the engine. *)
Theorem C9_probe_skips_validation (h : Host) (appName : string) :
  (exists rest,
     Regex.matchAll (isAppRunningScript appName) = "System Events" :: rest) /\
  ~ In "System Events" ALLOWED_APPS /\
  In "System Events" FORBIDDEN_PATTERNS /\
  (exists e,
     validateScript (isAppRunningScript appName) "System Events" = Throw e) /\
  ExecutionContext.skipValidation (isAppRunningContext appName) = Some true /\
  neverValidates (fst (isAppRunning h appName)) = true /\
  In (EvSpawn (isAppRunningScript appName)) (fst (isAppRunning h appName)) /\
  (exists b, snd (isAppRunning h appName) = Ok b).
Proof.
  split; [apply probe_opens_System_Events|].
  split; [vm_compute; intuition discriminate|].
  split; [vm_compute; tauto|].
  split; [apply probe_rejected|].
  split; [reflexivity|].
  rewrite isAppRunning_unfold.
  destruct (execute_skipping h (isAppRunningContext appName) eq_refl)
    as (lvl & msg & E).
  destruct (executeScript h (isAppRunningContext appName)) as [tr [r|e]];
    simpl in E |- *; subst tr; (split; [reflexivity|]);
    (split; [simpl; tauto|]); eexists; reflexivity.
Qed.

(* ===================================================================== *)
(** ** Further properties: the validator as a whole *)
(* ===================================================================== *)

Lemma findForbidden_none (script : string) :
  findForbiddenPattern script = None <->
  forall p, In p FORBIDDEN_PATTERNS -> ~ ciOccurs p script.
Proof.
  unfold findForbiddenPattern. split.
  - intros H p I O.
    destruct (findForbidden_hits _ _ _ I O) as (q & Q). congruence.
  - intro H.
    destruct (findForbiddenPatternIn FORBIDDEN_PATTERNS script) as [p|] eqn:F;
      [|reflexivity].
    destruct (findForbidden_first _ _ _ F) as (before & after & E & O & _).
    exfalso. apply (H p); [|exact O]. rewrite E. apply in_elt.
Qed.





Lemma accepted_inv (script targetApp : string) :
  validateScript script targetApp = Ok tt ->
  blank script = false /\
  JS.length script <= maxLength /\
  isAllowedApp targetApp = true /\
  scriptTargetsApp script targetApp = true /\
  findForbiddenPattern script = None /\
  startsWithTellApplication script = true.
Proof.
  unfold validateScript. rewrite layer1_blank.
  destruct (blank script); [discriminate|].
  destruct (Z.gtb_spec (JS.length script) maxLength); [discriminate|].
  destruct (isAllowedApp targetApp); [|discriminate].
  destruct (scriptTargetsApp script targetApp); [|discriminate].
  destruct (findForbiddenPattern script); [discriminate|].
  destruct (startsWithTellApplication script); [|discriminate].
  intros _. repeat split; trivial; lia.
Qed.


(** X2. The first two layers do not look at the declared application: a
    blank script, or one of more than 50000 characters, is rejected with
    the same error for every declared application, allowed or not, and the
    message is the empty-script one or the length one. *)
Theorem X2_early_layers_ignore_app (script app1 app2 : string) :
  blank script = true \/ maxLength < JS.length script ->
  validateScript script app1 = validateScript script app2 /\
  exists e,
    validateScript script app1 = Throw e /\
    (message e = msgEmpty \/ message e = msgTooLong).
Proof.
  intros H. destruct (blank script) eqn:B.
  - rewrite !validate_blank by exact B. split; [reflexivity|].
    eexists. split; [reflexivity | now left].
  - destruct H as [H|H]; [discriminate|].
    rewrite !validate_too_long by assumption. split; [reflexivity|].
    eexists. split; [reflexivity | now right].
Qed.

Lemma X2_witness :
  validateScript "   " "Terminal" = validateScript "   " "Notes" /\
  exists e,
    validateScript "   " "Terminal" = Throw e /\
    (message e = msgEmpty \/ message e = msgTooLong).
Proof.
  apply (X2_early_layers_ignore_app "   " "Terminal" "Notes").
  left. reflexivity.
Defined.

(* ===================================================================== *)
(** ** Further properties: a script that leads with its clause *)
(* ===================================================================== *)

Section LeadingClause.

Lemma white_not_letter (c : ascii) (w : string) (s : string) :
  JS.isWhiteSpace c = true -> Regex.literalCI (String "t" w) (String c s) = None.
Proof.
  intro W. simpl. rewrite charCI_lowerChar.
  destruct (Ascii.eqb_spec (JS.lowerChar "t") (JS.lowerChar c)) as [E|];
    [|reflexivity].
  rewrite <- isWhiteSpace_lowerChar, <- E in W. discriminate W.
Qed.

Lemma tellAt_white (c : ascii) (s : string) :
  JS.isWhiteSpace c = true -> Regex.tellAt (String c s) = None.
Proof.
  intro W. unfold Regex.tellAt, Regex.tellHead.
  now rewrite (white_not_letter c "ell" s W).
Qed.

Lemma matchAll_skip_blank (pre s : string) :
  blank pre = true ->
  Regex.matchAllFrom 0 (pre ++ s) = Regex.matchAllFrom 0 s.
Proof.
  unfold blank. induction pre as [|c pre IH]; intro B; [reflexivity|].
  simpl in B. apply andb_true_iff in B as [W B].
  change (String c pre ++ s) with (String c (pre ++ s)).
  cbn [Regex.matchAllFrom]. rewrite (tellAt_white c _ W). now apply IH.
Qed.

Lemma trimStart_blank_append (pre s : string) :
  blank pre = true -> JS.trimStart (pre ++ s) = JS.trimStart s.
Proof.
  unfold blank. induction pre as [|c pre IH]; intro B; [reflexivity|].
  simpl in B. apply andb_true_iff in B as [W B]. simpl. rewrite W.
  now apply IH.
Qed.

Lemma trimEnd_blank_append (a b : string) :
  blank b = true -> JS.trimEnd (a ++ b) = JS.trimEnd a.
Proof.
  intro B. unfold JS.trimEnd.
  now rewrite rev_append, trimStart_blank_append by now rewrite blank_rev.
Qed.

(** Trimming the end keeps everything up to a character that is not white
    space. *)
Lemma trimEnd_keeps (a r : string) (q : ascii) :
  JS.isWhiteSpace q = false ->
  exists r', JS.trimEnd (a ++ String q r) = a ++ String q r'.
Proof.
  intro Q.
  assert (One : JS.trimEnd (String q EmptyString) = String q EmptyString)
    by (unfold JS.trimEnd; simpl; now rewrite Q).
  assert (NB : blank (String q r) = false)
    by (unfold blank; simpl; now rewrite Q).
  rewrite trimEnd_append by exact NB.
  change (String q r) with (String q EmptyString ++ r).
  destruct (blank r) eqn:B.
  - exists EmptyString. now rewrite trimEnd_blank_append, One.
  - exists (JS.trimEnd r). now rewrite trimEnd_append.
Qed.

Lemma tellHead_complete (t w1 a w2 rest : string) (q : ascii) :
  ciEq t "tell" -> whites w1 -> ciEq a "application" -> whites w2 ->
  Regex.isQuote q = true ->
  Regex.tellHead (t ++ w1 ++ a ++ w2 ++ String q rest) = Some rest.
Proof.
  intros Ht Hw1 Ha Hw2 Hq. unfold Regex.tellHead.
  rewrite (literalCI_complete "tell" t _ Ht).
  rewrite (spaces1_complete w1 _ Hw1)
    by (eapply ciEq_head_not_white; [exact Ha | reflexivity]).
  rewrite (literalCI_complete "application" a _ Ha).
  rewrite (spaces1_complete w2 _ Hw2) by (simpl; now apply quote_not_white).
  simpl. now rewrite Hq.
Qed.

Lemma ciEq_tell_trimStart (t rest : string) :
  ciEq t "tell" -> JS.trimStart (t ++ rest) = t ++ rest.
Proof.
  intro Ht.
  pose proof (ciEq_head_not_white t "ell" rest "t" Ht eq_refl) as H.
  destruct (t ++ rest) as [|c s]; [reflexivity|].
  simpl in *. now rewrite H.
Qed.

End LeadingClause.

Lemma leading_clause_targets (pre clause post x targetApp : string) :
  blank pre = true -> OpeningClause x clause -> ciEq x targetApp ->
  scriptTargetsApp (pre ++ clause ++ post) targetApp = true.
Proof.
  intros B O E.
  apply scriptTargetsApp_matches. exists x. split; [|exact E].
  unfold Regex.matchAll. rewrite matchAll_skip_blank by exact B.
  destruct (matchAll_head _ _ _ (tellAt_complete x clause post O))
    as (rest & M).
  unfold Regex.matchAll in M. rewrite M. now left.
Qed.

Lemma leading_clause_starts (pre clause post x : string) :
  blank pre = true -> OpeningClause x clause ->
  startsWithTellApplication (pre ++ clause ++ post) = true.
Proof.
  intros B O.
  unfold startsWithTellApplication, Regex.testStart, JS.trim.
  rewrite trimStart_blank_append by exact B.
  destruct O as [t w1 a w2 q1 q2 Ht Hw1 Ha Hw2 Hq1 Hq2 Hn Hq].
  assert (Assoc : forall r,
            (t ++ w1 ++ a ++ w2) ++ String q1 r
            = t ++ w1 ++ a ++ w2 ++ String q1 r)
    by (intro r; now rewrite !append_assoc).
  assert (E1 : (t ++ w1 ++ a ++ w2 ++ String q1 (x ++ String q2 EmptyString))
               ++ post
               = t ++ w1 ++ a ++ w2 ++ String q1 (x ++ String q2 post))
    by (repeat (rewrite ?append_assoc; simpl); reflexivity).
  rewrite E1, ciEq_tell_trimStart by exact Ht.
  destruct (trimEnd_keeps (t ++ w1 ++ a ++ w2) (x ++ String q2 post) q1
              (quote_not_white _ Hq1)) as (r' & T).
  rewrite !Assoc in T. rewrite T. now rewrite tellHead_complete.
Qed.

(** X3. A script that consists of optional white space, then an opening
    clause naming the declared application up to case, then anything,
    passes both the self-consistency scan of layer 4 and the
    structural-start check of layer 6. *)
Theorem X3_leading_clause_passes
  (pre clause post x targetApp : string) :
  blank pre = true ->
  OpeningClause x clause ->
  ciEq x targetApp ->
  scriptTargetsApp (pre ++ clause ++ post) targetApp = true /\
  startsWithTellApplication (pre ++ clause ++ post) = true.
Proof.
  intros B O E. split.
  - now apply (leading_clause_targets pre clause post x).
  - now apply (leading_clause_starts pre clause post x).
Qed.

Lemma X3_witness :
  let script := LFs ++ "  TELL  application 'notes'" ++ LFs ++ "end tell" in
  scriptTargetsApp script "Notes" = true /\
  startsWithTellApplication script = true.
Proof.
  intro script.
  apply (X3_leading_clause_passes (LFs ++ "  ")
           ("TELL  application 'notes'") (LFs ++ "end tell") "notes" "Notes").
  - reflexivity.
  - apply (OpeningClause_intro "notes" "TELL" "  " "application" " "
             JS.SQUOTE JS.SQUOTE); try reflexivity;
      try (split; [discriminate | reflexivity]); discriminate.
  - reflexivity.
Defined.

(* ===================================================================== *)
(** ** Further properties: escaping *)
(* ===================================================================== *)

Section EscapingFacts.

Lemma flatMap_append (f : ascii -> string) (a b : string) :
  flatMap f (a ++ b) = flatMap f a ++ flatMap f b.
Proof.
  induction a as [|c a IH]; simpl; [reflexivity|].
  now rewrite IH, append_assoc.
Qed.

Lemma readLiteral_step (c : ascii) (r : string) :
  Ascii.eqb c JS.DQUOTE = false -> Ascii.eqb c JS.BACKSLASH = false ->
  readLiteral (String c r) =
  match readLiteral r with
  | Some (t, rest) => Some (String c t, rest)
  | None => None
  end.
Proof. intros Q B. simpl. now rewrite Q, B. Qed.

Lemma readLiteral_escapeChar (c : ascii) (r : string) :
  readLiteral (escapeChar c ++ r) =
  match readLiteral r with
  | Some (t, rest) => Some (String c t, rest)
  | None => None
  end.
Proof.
  unfold escapeChar.
  destruct (Ascii.eqb_spec c JS.BACKSLASH) as [->|Hb]; [reflexivity|].
  destruct (Ascii.eqb_spec c JS.DQUOTE) as [->|Hq]; [reflexivity|].
  apply readLiteral_step; now apply Ascii.eqb_neq.
Qed.

Lemma readLiteral_sanitizeChar (c : ascii) (r : string) :
  readLiteral (sanitizeChar c ++ r) =
  match readLiteral r with
  | Some (t, rest) => Some (String c t, rest)
  | None => None
  end.
Proof.
  unfold sanitizeChar.
  destruct (Ascii.eqb_spec c JS.LF) as [->|Hl]; [reflexivity|].
  apply readLiteral_escapeChar.
Qed.

Lemma readLiteral_flatMap (f : ascii -> string) (s rest : string) :
  (forall c r, readLiteral (f c ++ r) =
               match readLiteral r with
               | Some (t, rest) => Some (String c t, rest)
               | None => None
               end) ->
  readLiteral (flatMap f s ++ String JS.DQUOTE rest) = Some (s, rest).
Proof.
  intro F. induction s as [|c s IH]; [reflexivity|].
  simpl. now rewrite append_assoc, F, IH.
Qed.

Lemma length_escapeChar (c : ascii) :
  String.length (escapeChar c) = if isSpecial c then 2%nat else 1%nat.
Proof.
  unfold escapeChar, isSpecial.
  destruct (Ascii.eqb c JS.BACKSLASH); [reflexivity|].
  destruct (Ascii.eqb c JS.DQUOTE); reflexivity.
Qed.

Lemma length_escape (s : string) :
  String.length (escapeAppleScriptString s)
  = (String.length s + countIf isSpecial s)%nat.
Proof.
  rewrite escape_flatMap. unfold countIf.
  induction s as [|c s IH]; simpl; [reflexivity|].
  rewrite length_append, IH, length_escapeChar.
  destruct (isSpecial c); simpl; lia.
Qed.

Lemma countIf_le (p : ascii -> bool) (s : string) :
  (countIf p s <= String.length s)%nat.
Proof.
  unfold countIf. induction s as [|c s IH]; simpl; [lia|].
  destruct (p c); simpl; lia.
Qed.

End EscapingFacts.

(** X4. Both escaping functions work piece by piece: escaping a
    concatenation gives the concatenation of the escaped parts, and the
    empty text stays empty. *)
Theorem X4_escaping_distributes (a b : string) :
  escapeAppleScriptString (a ++ b)
    = escapeAppleScriptString a ++ escapeAppleScriptString b /\
  sanitizeForAppleScript (a ++ b)
    = sanitizeForAppleScript a ++ sanitizeForAppleScript b /\
  escapeAppleScriptString EmptyString = EmptyString /\
  sanitizeForAppleScript EmptyString = EmptyString.
Proof.
  rewrite !escape_flatMap, !sanitize_flatMap, !flatMap_append.
  repeat split.
Qed.

Lemma escape_reads_back (s rest : string) :
  readLiteral (escapeAppleScriptString s ++ String JS.DQUOTE rest)
    = Some (s, rest).
Proof.
  rewrite escape_flatMap. apply readLiteral_flatMap, readLiteral_escapeChar.
Qed.

Lemma sanitize_reads_back (s rest : string) :
  readLiteral (sanitizeForAppleScript s ++ String JS.DQUOTE rest)
    = Some (s, rest).
Proof.
  rewrite sanitize_flatMap.
  apply readLiteral_flatMap, readLiteral_sanitizeChar.
Qed.

(** X5. Text escaped by either function and put between double quotes is
    one string literal: reading it stops exactly at the closing quote that
    the template wrote, whatever follows, and gives the original text back.
    No quote or trailing backslash of the input can close or extend the
    literal. *)
Theorem X5_escaped_text_reads_back (s rest : string) :
  readLiteral (escapeAppleScriptString s ++ String JS.DQUOTE rest)
    = Some (s, rest) /\
  readLiteral (sanitizeForAppleScript s ++ String JS.DQUOTE rest)
    = Some (s, rest).
Proof.
  split; [apply escape_reads_back | apply sanitize_reads_back].
Qed.

(** X6. Both escaping functions are injective: two inputs with the same
    escaped text are the same input. *)
Theorem X6_escaping_injective (s1 s2 : string) :
  escapeAppleScriptString s1 = escapeAppleScriptString s2 \/
  sanitizeForAppleScript s1 = sanitizeForAppleScript s2 ->
  s1 = s2.
Proof.
  intros [H|H].
  - pose proof (escape_reads_back s1 EmptyString) as R1.
    pose proof (escape_reads_back s2 EmptyString) as R2.
    rewrite H in R1. congruence.
  - pose proof (sanitize_reads_back s1 EmptyString) as R1.
    pose proof (sanitize_reads_back s2 EmptyString) as R2.
    rewrite H in R1. congruence.
Qed.

Lemma X6_witness : scenarioE_title = scenarioE_title.
Proof.
  apply (X6_escaping_injective scenarioE_title scenarioE_title).
  left. reflexivity.
Defined.

(** X7. escapeAppleScriptString adds one character for each backslash and
    each double quote of the input and nothing else: the escaped text is at
    least as long as the input and at most twice as long. *)
Theorem X7_escaped_length (s : string) :
  JS.length (escapeAppleScriptString s)
    = JS.length s + Z.of_nat (countIf isSpecial s) /\
  JS.length s <= JS.length (escapeAppleScriptString s) <= 2 * JS.length s.
Proof.
  unfold JS.length. rewrite length_escape.
  pose proof (countIf_le isSpecial s). lia.
Qed.

(* ===================================================================== *)
(** ** Further properties: names, truncation, priorities *)
(* ===================================================================== *)

Section SmallHelpers.

Lemma testClass_false (p : ascii -> bool) (s : string) :
  testClass p s = false <-> forall c, In c (chars s) -> p c = false.
Proof.
  induction s as [|c s IH]; simpl.
  - split; [intros _ c [] | reflexivity].
  - rewrite orb_false_iff, IH. split.
    + intros [P H] d [<-|I]; [exact P | now apply H].
    + intro H. split; [apply H; now left | intros d I; apply H; now right].
Qed.

Lemma validateNameAs_ok (what name : string) :
  validateNameAs what name = Ok tt <->
  blank name = false /\ JS.length name <= 255 /\
  forall c, In c (chars name) -> isSuspicious c = false.
Proof.
  unfold validateNameAs. rewrite layer1_blank, <- testClass_false.
  destruct (blank name); [split; [discriminate | intros [H _]; discriminate]|].
  destruct (Z.gtb_spec (JS.length name) 255) as [G|G].
  - split; [discriminate | intros (_ & H & _); lia].
  - destruct (testClass isSuspicious name).
    + split; [discriminate | intros (_ & _ & H); discriminate].
    + split; [intros _; repeat split; trivial; lia | reflexivity].
Qed.

Lemma suspicious_chars (c : ascii) :
  isSuspicious c = false ->
  c <> JS.DQUOTE /\ c <> JS.LF /\ (32 <= JS.code c)%N.
Proof.
  intro H. repeat split.
  - intros ->. discriminate H.
  - intros ->. discriminate H.
  - unfold isSuspicious in H. rewrite !orb_false_iff in H.
    destruct H as (_ & H). apply N.leb_gt in H. lia.
Qed.

Lemma length_substring0 (s : string) (n : nat) :
  String.length (String.substring 0 n s) = Nat.min n (String.length s).
Proof.
  revert s. induction n as [|n IH]; intros [|c s]; simpl; trivial.
  now rewrite IH.
Qed.

Lemma substring0_prefix (s : string) (n : nat) :
  exists rest, s = String.substring 0 n s ++ rest.
Proof.
  revert s. induction n as [|n IH]; intros [|c s]; simpl.
  - now exists EmptyString.
  - now exists (String c s).
  - now exists EmptyString.
  - destruct (IH s) as (rest & E). exists rest. now rewrite <- E.
Qed.

End SmallHelpers.

(** X8. The three name validators accept the same names: those that are
    not blank, have at most 255 characters and hold none of the characters
    of the suspicious class.  An accepted name therefore holds no double
    quote, no line feed and no other control character. *)
Theorem X8_name_validators_agree (name : string) :
  let accepted :=
    blank name = false /\ JS.length name <= 255 /\
    forall c, In c (chars name) -> isSuspicious c = false in
  (validateListName name = Ok tt <-> accepted) /\
  (validateCalendarName name = Ok tt <-> accepted) /\
  (validateFolderName name = Ok tt <-> accepted) /\
  (accepted ->
   forall c, In c (chars name) ->
             c <> JS.DQUOTE /\ c <> JS.LF /\ (32 <= JS.code c)%N).
Proof.
  intro accepted.
  split; [apply validateNameAs_ok|].
  split; [apply validateNameAs_ok|].
  split; [apply validateNameAs_ok|].
  intros (_ & _ & H) c I. exact (suspicious_chars c (H c I)).
Qed.

(** X9. truncate returns a text of at most max(maxLength, 3) characters.
    A text within the limit is returned as it is; a longer one, when the
    limit is at least 3, becomes its first maxLength - 3 characters followed
    by three dots, of length exactly maxLength; when the limit is below 3 a
    longer text becomes the three dots alone, which exceed the limit. *)
Theorem X9_truncate_shape (str : string) (maxLength : Z) :
  JS.length (truncate str maxLength) <= Z.max maxLength 3 /\
  (JS.length str <= maxLength -> truncate str maxLength = str) /\
  (maxLength < JS.length str -> 3 <= maxLength ->
   JS.length (truncate str maxLength) = maxLength /\
   exists kept rest,
     truncate str maxLength = kept ++ "..." /\ str = kept ++ rest /\
     JS.length kept = maxLength - 3) /\
  (maxLength < JS.length str -> maxLength < 3 ->
   truncate str maxLength = "...").
Proof.
  unfold truncate, substring0, JS.length.
  pose proof (length_substring0 str (Z.to_nat (maxLength - 3))) as L.
  destruct (Z.leb_spec (Z.of_nat (String.length str)) maxLength) as [H|H].
  - split; [lia|]. split; [reflexivity|]. split; intros; lia.
  - rewrite length_append, L. simpl String.length.
    split; [lia|]. split; [intros; lia|]. split.
    + intros _ M. split; [lia|].
      destruct (substring0_prefix str (Z.to_nat (maxLength - 3)))
        as (rest & E).
      exists (String.substring 0 (Z.to_nat (maxLength - 3)) str), rest.
      split; [reflexivity|]. split; [exact E|]. rewrite L. lia.
    + intros _ M. replace (Z.to_nat (maxLength - 3)) with 0%nat by lia.
      destruct str; reflexivity.
Qed.

(** X10. isNonEmptyString holds exactly for the strings that have a
    character other than white space; it fails for every value that is not
    a string. *)
Theorem X10_isNonEmptyString_spec (s : string) :
  (isNonEmptyString (UString s) = true <->
   exists c, In c (chars s) /\ JS.isWhiteSpace c = false) /\
  isNonEmptyString UOther = false.
Proof.
  split; [|reflexivity]. unfold isNonEmptyString.
  assert (B : (JS.length (JS.trim s) >? 0) = negb (blank s)).
  { destruct (blank s) eqn:E.
    - apply trim_empty in E. now rewrite E.
    - destruct (JS.trim s) eqn:T.
      + apply trim_empty in T. congruence.
      + reflexivity. }
  rewrite B, negb_true_iff. unfold blank. split.
  - intro H. induction (chars s) as [|c l IH]; [discriminate|].
    simpl in H. destruct (JS.isWhiteSpace c) eqn:W.
    + destruct (IH H) as (d & I & D). exists d. split; [now right | exact D].
    + exists c. split; [now left | exact W].
  - intros (c & I & W).
    destruct (forallb JS.isWhiteSpace (chars s)) eqn:F; [|reflexivity].
    rewrite forallb_forall in F. rewrite (F c I) in W. discriminate.
Qed.

(** X11. appleScriptToPriority rounds a number down to a priority: the
    result is one of the four names, its code does not exceed the number
    (or is 0 for a negative number), and no priority whose code is within
    the number has a larger code. *)
Theorem X11_priority_decoding_rounds_down (value : Z) :
  let p := appleScriptToPriority value in
  In p PRIORITIES /\
  priorityToAppleScript p <= Z.max value 0 /\
  forall q, In q PRIORITIES -> priorityToAppleScript q <= value ->
            priorityToAppleScript q <= priorityToAppleScript p.
Proof.
  unfold appleScriptToPriority.
  destruct (Z.geb_spec value 9); [|destruct (Z.geb_spec value 5);
    [|destruct (Z.geb_spec value 1)]];
    (split; [simpl; tauto|]); (split; [vm_compute priorityToAppleScript; lia|]);
    intros q [<-|[<-|[<-|[<-|[]]]]]; vm_compute priorityToAppleScript; lia.
Qed.

(* ===================================================================== *)
(** ** Further properties: the execution wrapper *)
(* ===================================================================== *)

Section ExecutionShape.

Variable h : Host.
Variable ctx : ExecutionContext.t.

Let script := ExecutionContext.script ctx.
Let app := ExecutionContext.app ctx.
Let operation := ExecutionContext.operation ctx.
Let T := effectiveTimeout ctx.

(** The error that the handler throws for a value that is not one of the
    error classes, by its message. *)
Let thrownFor (errorMessage : string) : MacOSMCPError :=
  if JS.includes errorMessage "timed out" || JS.includes errorMessage "Timeout"
  then ExecutionTimeoutError T [("app", DStr app); ("operation", DStr operation)]
  else if isPermissionError errorMessage
  then PermissionError app [("operation", DStr operation);
                            ("originalError", DStr errorMessage)]
  else if isAppNotFoundError errorMessage
  then AppNotFoundError app [("operation", DStr operation);
                             ("originalError", DStr errorMessage)]
  else ScriptExecutionError errorMessage
         [("app", DStr app); ("operation", DStr operation);
          ("duration", DNum (duration h))].

(** The part of a call from the spawn on. *)
Let fromSpawn (pre : list Event) : M MacOSMCPError string :=
  match timeout (runAppleScript h script) T (Some (msgTimedOut T)) with
  | Ok out =>
      ((pre ++ [EvSpawn script; EvLog Info "Script executed successfully"])%list,
       Ok out)
  | Throw m =>
      ((pre ++ [EvSpawn script; EvLog Error "Script execution failed"])%list,
       Throw (thrownFor m))
  end.

Lemma execute_shape :
  executeScript h ctx =
  if validationOn ctx then
    match validateScript script app with
    | Throw e =>
        ([EvLog Info "Executing AppleScript"; EvValidate script app;
          EvLog Error "Script execution failed"], Throw e)
    | Ok _ =>
        fromSpawn [EvLog Info "Executing AppleScript"; EvValidate script app]
    end
  else
    fromSpawn [EvLog Info "Executing AppleScript";
               EvLog Warn "Security validation skipped"].
Proof.
  unfold validationOn, executeScript, callValidateScript, awaitEngine,
    fromSpawn, thrownFor.
  fold script app operation T.
  destruct (ExecutionContext.skipValidation ctx) as [[|]|];
    try destruct (validateScript script app) as [[]|e];
    try reflexivity;
    destruct (timeout _ _ _) as [out|m];
    cbn -[JS.includes isPermissionError isAppNotFoundError
          ExecutionTimeoutError PermissionError AppNotFoundError
          ScriptExecutionError];
    try reflexivity;
    destruct (_ || _); try reflexivity;
    destruct (isPermissionError m); try reflexivity;
    destruct (isAppNotFoundError m); reflexivity.
Qed.

Lemma timerDelay_in_range (ms : Z) :
  1 <= ms <= MAX_TIMER_DELAY -> timerDelay ms = ms.
Proof.
  unfold timerDelay, MAX_TIMER_DELAY. intros [L U].
  apply Z.leb_le in L, U. now rewrite L, U.
Qed.

Lemma timeout_fulfils (out : string) (m : option string) :
  1 <= T <= MAX_TIMER_DELAY ->
  fulfilsWithin (runAppleScript h script) T out ->
  timeout (runAppleScript h script) T m = Ok out.
Proof.
  intros R (t & -> & L). unfold timeout.
  rewrite (timerDelay_in_range T R).
  now rewrite (proj2 (Z.leb_le t T) L).
Qed.

Lemma timeout_rejects (msg : string) (m : option string) :
  1 <= T <= MAX_TIMER_DELAY ->
  rejectsWithin (runAppleScript h script) T msg ->
  timeout (runAppleScript h script) T m = Throw msg.
Proof.
  intros R (t & -> & L). unfold timeout.
  rewrite (timerDelay_in_range T R).
  now rewrite (proj2 (Z.leb_le t T) L).
Qed.

(** When the engine is reached, the result is decided by the race. *)
Lemma execute_reached :
  validationOn ctx = false \/ validateScript script app = Ok tt ->
  snd (executeScript h ctx) =
  match timeout (runAppleScript h script) T (Some (msgTimedOut T)) with
  | Ok out => Ok out
  | Throw m => Throw (thrownFor m)
  end /\
  spawnCount (fst (executeScript h ctx)) = 1%nat.
Proof.
  intro V. rewrite execute_shape. unfold fromSpawn.
  destruct (validationOn ctx); destruct V as [V|V]; try discriminate V;
    try rewrite V;
    try destruct (validateScript script app) as [[]|e];
    destruct (timeout _ _ _); split; reflexivity.
Qed.

Lemma execute_spawn_count : (spawnCount (fst (executeScript h ctx)) <= 1)%nat.
Proof.
  rewrite execute_shape. unfold fromSpawn.
  destruct (validationOn ctx);
    try destruct (validateScript script app) as [[]|e];
    try destruct (timeout _ _ _); cbn; lia.
Qed.

Lemma execute_spawned (s : string) :
  In (EvSpawn s) (fst (executeScript h ctx)) ->
  s = script /\
  (validationOn ctx = true -> validateScript script app = Ok tt).
Proof.
  rewrite execute_shape. unfold fromSpawn.
  destruct (validationOn ctx);
    try destruct (validateScript script app) as [[]|e];
    try destruct (timeout _ _ _); cbn; intro I;
    repeat (destruct I as [I|I]; try discriminate I;
            try (injection I as <-)); try contradiction;
    split; try reflexivity; try discriminate; trivial.
Qed.

Lemma execute_throws (e : MacOSMCPError) :
  snd (executeScript h ctx) = Throw e ->
  In (name e, code e) EXECUTION_ERRORS.
Proof.
  rewrite execute_shape. unfold fromSpawn, thrownFor.
  assert (Sec : forall e', validateScript script app = Throw e' ->
                           In (name e', code e') EXECUTION_ERRORS).
  { unfold validateScript. intros e'.
    repeat match goal with
           | |- context [if ?b then _ else _] => destruct b
           | |- context [match findForbiddenPattern ?s with _ => _ end] =>
               destruct (findForbiddenPattern s)
           end; intro E; try discriminate E; injection E as <-;
      simpl; tauto. }
  destruct (validationOn ctx);
    try destruct (validateScript script app) as [[]|e'] eqn:V;
    try destruct (timeout _ _ _) as [out|m]; cbn [snd]; intro E;
    try discriminate E; injection E as <-;
    try (now apply Sec);
    destruct (_ || _); try (simpl; tauto);
    destruct (isPermissionError m); try (simpl; tauto);
    destruct (isAppNotFoundError m); simpl; tauto.
Qed.

End ExecutionShape.

Section Keywords.

Lemma some_keyword (keywords : list string) (msg : string) :
  (forall k, In k keywords -> JS.toLowerCase k = k) ->
  JS.some (fun keyword => JS.includes (JS.toLowerCase msg) keyword) keywords
    = true <->
  exists k, In k keywords /\ ciOccurs k msg.
Proof.
  intro Low. unfold JS.some. rewrite existsb_exists.
  split; intros (k & I & H); exists k; (split; [exact I|]).
  - apply includes_ciOccurs. now rewrite (Low k I).
  - apply includes_ciOccurs in H. now rewrite (Low k I) in H.
Qed.

Lemma timeout_ok_inv (p : Promise) (ms : Z) (m : option string) (out : string) :
  timeout p ms m = Ok out -> fulfilsWithin p (timerDelay ms) out.
Proof.
  unfold timeout, fulfilsWithin. destruct p as [t o|]; [|discriminate].
  destruct (Z.leb_spec t (timerDelay ms)); [|discriminate].
  intros ->. now exists t.
Qed.

End Keywords.

(** X12. isPermissionError and isAppNotFoundError hold exactly when one of
    their keywords occurs in the message, compared without regard to
    case. *)
Theorem X12_keyword_classifiers (errorMessage : string) :
  (isPermissionError errorMessage = true <->
   exists k, In k PERMISSION_KEYWORDS /\ ciOccurs k errorMessage) /\
  (isAppNotFoundError errorMessage = true <->
   exists k, In k NOT_FOUND_KEYWORDS /\ ciOccurs k errorMessage).
Proof.
  split.
  - apply (some_keyword PERMISSION_KEYWORDS). intros k I. simpl in I.
    repeat (destruct I as [<-|I]; [reflexivity|]). contradiction.
  - apply (some_keyword NOT_FOUND_KEYWORDS). intros k I. simpl in I.
    repeat (destruct I as [<-|I]; [reflexivity|]). contradiction.
Qed.

(** X13. For a timeout in force between 1 and 2^31 - 1 milliseconds:
    when the engine is reached and rejects by the deadline,
    executeScript classifies the rejection by its message, in this order: a
    message that holds the text timed out or Timeout (in exactly this case)
    gives an ExecutionTimeoutError carrying the timeout in force, although
    no deadline passed; otherwise a permission keyword gives a
    PermissionError, otherwise a not-found keyword gives an
    AppNotFoundError, each keeping the original message; anything else
    gives a ScriptExecutionError with the original message and the elapsed
    time. *)
Theorem X13_rejection_classified
  (h : Host) (ctx : ExecutionContext.t) (msg : string) :
  let app := ExecutionContext.app ctx in
  let operation := ExecutionContext.operation ctx in
  let timedOut := JS.includes msg "timed out" || JS.includes msg "Timeout" in
  1 <= effectiveTimeout ctx <= MAX_TIMER_DELAY ->
  validationOn ctx = false \/
  validateScript (ExecutionContext.script ctx) app = Ok tt ->
  rejectsWithin (runAppleScript h (ExecutionContext.script ctx))
                (effectiveTimeout ctx) msg ->
  exists e,
    snd (executeScript h ctx) = Throw e /\
    (timedOut = true ->
     e = ExecutionTimeoutError (effectiveTimeout ctx)
           [("app", DStr app); ("operation", DStr operation)]) /\
    (timedOut = false -> isPermissionError msg = true ->
     e = PermissionError app
           [("operation", DStr operation); ("originalError", DStr msg)]) /\
    (timedOut = false -> isPermissionError msg = false ->
     isAppNotFoundError msg = true ->
     e = AppNotFoundError app
           [("operation", DStr operation); ("originalError", DStr msg)]) /\
    (timedOut = false -> isPermissionError msg = false ->
     isAppNotFoundError msg = false ->
     e = ScriptExecutionError msg
           [("app", DStr app); ("operation", DStr operation);
            ("duration", DNum (duration h))]).
Proof.
  intros app operation timedOut Rg V R.
  destruct (execute_reached h ctx V) as [E _].
  rewrite (timeout_rejects h ctx msg _ Rg R) in E.
  eexists. split; [exact E|]. fold timedOut.
  destruct timedOut; destruct (isPermissionError msg);
    destruct (isAppNotFoundError msg);
    repeat split; intros; try discriminate; reflexivity.
Qed.

(** The engine answers at once that an Apple event timed out, and then that
    the caller is not authorized. *)
Lemma X13_witness :
  let script := "tell application " ++ JS.quoted "Notes" ++ LFs ++ "end tell" in
  let ctx := ExecutionContext.mk script "Notes" "list" (Some 10000) None in
  let h1 := mkHost (fun _ => Settles 1 (Throw "AppleEvent timed out")) 1 in
  let h2 := mkHost (fun _ => Settles 1 (Throw "Not authorized to send Apple events")) 1 in
  snd (executeScript h1 ctx) =
    Throw (ExecutionTimeoutError 10000
             [("app", DStr "Notes"); ("operation", DStr "list")]) /\
  snd (executeScript h2 ctx) =
    Throw (PermissionError "Notes"
             [("operation", DStr "list");
              ("originalError", DStr "Not authorized to send Apple events")]).
Proof.
  intros script ctx h1 h2. split.
  - destruct (X13_rejection_classified h1 ctx "AppleEvent timed out"
                ltac:(vm_compute; split; discriminate) (or_intror eq_refl))
      as (e & E & H & _).
    + exists 1. split; [reflexivity | vm_compute; discriminate].
    + rewrite E, (H eq_refl). reflexivity.
  - destruct (X13_rejection_classified h2 ctx
                "Not authorized to send Apple events"
                ltac:(vm_compute; split; discriminate) (or_intror eq_refl))
      as (e & E & _ & H & _).
    + exists 1. split; [reflexivity | vm_compute; discriminate].
    + rewrite E, (H eq_refl eq_refl). reflexivity.
Defined.

(** X14. For a timeout in force between 1 and 2^31 - 1 milliseconds:
    when the engine is reached and fulfils its promise by the deadline,
    executeScript returns the engine's output unchanged, and the
    engine was spawned exactly once. *)
Theorem X14_success_returns_output
  (h : Host) (ctx : ExecutionContext.t) (out : string) :
  1 <= effectiveTimeout ctx <= MAX_TIMER_DELAY ->
  validationOn ctx = false \/
  validateScript (ExecutionContext.script ctx) (ExecutionContext.app ctx)
    = Ok tt ->
  fulfilsWithin (runAppleScript h (ExecutionContext.script ctx))
                (effectiveTimeout ctx) out ->
  snd (executeScript h ctx) = Ok out /\
  spawnCount (fst (executeScript h ctx)) = 1%nat.
Proof.
  intros R V F. destruct (execute_reached h ctx V) as [E C].
  rewrite (timeout_fulfils h ctx out _ R F) in E. now split.
Qed.

Lemma X14_witness :
  let script := "tell application " ++ JS.quoted "Notes" ++ LFs ++ "end tell" in
  let ctx := ExecutionContext.mk script "Notes" "list" None None in
  let h := mkHost (fun _ => Settles 30000 (Ok "id|name")) 30001 in
  snd (executeScript h ctx) = Ok "id|name" /\
  spawnCount (fst (executeScript h ctx)) = 1%nat.
Proof.
  intros script ctx h.
  apply (X14_success_returns_output h ctx "id|name").
  - vm_compute. split; discriminate.
  - right. reflexivity.
  - exists 30000. split; [reflexivity|]. vm_compute. discriminate.
Defined.

(** X15. Whatever happens, one call spawns the engine at most once, and
    only with the script of the request as it was given.  With validation
    on, a script that reaches the engine was accepted by validateScript, so
    no forbidden pattern occurs in it. *)
Theorem X15_spawned_scripts_were_accepted
  (h : Host) (ctx : ExecutionContext.t) (s : string) :
  In (EvSpawn s) (fst (executeScript h ctx)) ->
  s = ExecutionContext.script ctx /\
  (spawnCount (fst (executeScript h ctx)) <= 1)%nat /\
  (validationOn ctx = true ->
   validateScript s (ExecutionContext.app ctx) = Ok tt /\
   forall p, In p FORBIDDEN_PATTERNS -> ~ ciOccurs p s).
Proof.
  intro I. destruct (execute_spawned h ctx s I) as [-> V].
  split; [reflexivity|]. split; [apply execute_spawn_count|].
  intro On. split; [now apply V|].
  apply findForbidden_none.
  now apply (accepted_inv _ (ExecutionContext.app ctx)), V.
Qed.

Lemma X15_witness :
  let script := "tell application " ++ JS.quoted "Notes" ++ LFs ++ "end tell" in
  let ctx := ExecutionContext.mk script "Notes" "list" None None in
  let h := mkHost (fun _ => Never) 30001 in
  In (EvSpawn script) (fst (executeScript h ctx)) /\
  validateScript script "Notes" = Ok tt /\
  (spawnCount (fst (executeScript h ctx)) <= 1)%nat.
Proof.
  intros script ctx h.
  assert (I : In (EvSpawn script) (fst (executeScript h ctx)))
    by (vm_compute; tauto).
  destruct (X15_spawned_scripts_were_accepted h ctx script I)
    as (_ & C & V).
  split; [exact I|]. split; [exact (proj1 (V eq_refl)) | exact C].
Defined.

(** X16. Every error that executeScript throws is of one of five classes
    of errors.ts, with the code of its class: SecurityError,
    ExecutionTimeoutError, PermissionError, AppNotFoundError or
    ScriptExecutionError. *)
Theorem X16_errors_are_classified
  (h : Host) (ctx : ExecutionContext.t) (e : MacOSMCPError) :
  snd (executeScript h ctx) = Throw e ->
  In (name e, code e) EXECUTION_ERRORS.
Proof. apply execute_throws. Qed.

Lemma X16_witness :
  let ctx := ExecutionContext.mk "set x to 5" "Reminders" "add" None None in
  let h := mkHost (fun _ => Never) 1 in
  In ("SecurityError", "SECURITY_VIOLATION") EXECUTION_ERRORS.
Proof.
  intros ctx h.
  exact (X16_errors_are_classified h ctx
           (SecurityError (msgMismatch "Reminders")
              (Some [("app", DStr "Reminders")])) eq_refl).
Defined.

(* ===================================================================== *)
(** ** Further properties: the wrappers around executeScript *)
(* ===================================================================== *)

Section Wrappers.

Variable h : Host.

Lemma withResult_unfold (elapsed : Z) (ctx : ExecutionContext.t) :
  executeScriptWithResult h elapsed ctx =
  match executeScript h ctx with
  | (tr, Ok out) => (tr, Ok (ExecutionResult.mk out elapsed true))
  | (tr, Throw e) => (tr, Ok (ExecutionResult.mk (message e) elapsed false))
  end.
Proof.
  unfold executeScriptWithResult.
  destruct (executeScript h ctx) as [tr [out|e]]; simpl;
    now rewrite app_nil_r.
Qed.

Lemma testAppAccessScript_eq (appName : string) :
  testAppAccessScript appName = accessText appName.
Proof.
  unfold testAppAccessScript, accessText, JS.trim.
  assert (Q : forall r, JS.quoted appName ++ r
                        = String JS.DQUOTE EmptyString ++ appName
                          ++ String JS.DQUOTE EmptyString ++ r).
  { intro r. unfold JS.quoted. simpl. now rewrite append_assoc. }
  rewrite Q.
  set (tail := String JS.DQUOTE
                 (LFs ++ "  return " ++ JS.quoted "success" ++ LFs ++ "end tell")).
  change (JS.trimEnd
            (("tell application " ++ String JS.DQUOTE EmptyString)
             ++ appName ++ tail ++ LFs ++ "  ")
          = ("tell application " ++ String JS.DQUOTE EmptyString)
            ++ appName ++ tail).
  rewrite <- (append_assoc _ appName).
  rewrite trimEnd_append by reflexivity.
  now rewrite append_assoc.
Qed.

Lemma testAppAccess_unfold (appName : string) :
  testAppAccess h appName =
  match executeScript h
          (ExecutionContext.mk (testAppAccessScript appName) appName
             "test_access" (Some 5000) None) with
  | (tr, Ok _) =>
      ((tr ++ [EvLog Info "App access test successful"])%list, Ok true)
  | (tr, Throw _) =>
      ((tr ++ [EvLog Warn "App access test failed"])%list, Ok false)
  end.
Proof.
  unfold testAppAccess.
  destruct (executeScript h _) as [tr [out|e]]; reflexivity.
Qed.

Lemma spawnCount_app (a b : list Event) :
  spawnCount (a ++ b) = (spawnCount a + spawnCount b)%nat.
Proof. unfold spawnCount. now rewrite filter_app, length_app. Qed.

Lemma access_rejected (appName : string) :
  ~ In appName ALLOWED_APPS ->
  exists e, validateScript (testAppAccessScript appName) appName = Throw e.
Proof.
  intro N. rewrite testAppAccessScript_eq.
  assert (B : blank (accessText appName) = false) by reflexivity.
  destruct (Z_le_gt_dec (JS.length (accessText appName)) maxLength) as [L|L].
  - eexists. apply validate_not_allowed; trivial.
    destruct (isAllowedApp appName) eqn:A; [|reflexivity].
    apply arrayIncludes_In in A. contradiction.
  - eexists. apply validate_too_long; [exact B | lia].
Qed.

Lemma access_accepted (appName : string) :
  In appName ALLOWED_APPS ->
  validateScript (testAppAccessScript appName) appName = Ok tt.
Proof.
  intro I. simpl in I.
  repeat (destruct I as [<-|I]; [vm_compute; reflexivity|]). contradiction.
Qed.

End Wrappers.

(** X17. executeScriptWithResult never throws.  Its result reports success
    with the output exactly when executeScript returns, and otherwise
    reports failure with the message of the error that executeScript threw;
    it spawns the engine no more often than executeScript does. *)
Theorem X17_with_result_never_throws
  (h : Host) (elapsed : Z) (ctx : ExecutionContext.t) :
  exists r,
    snd (executeScriptWithResult h elapsed ctx) = Ok r /\
    ExecutionResult.duration r = elapsed /\
    fst (executeScriptWithResult h elapsed ctx) = fst (executeScript h ctx) /\
    (forall out, snd (executeScript h ctx) = Ok out ->
                 ExecutionResult.success r = true /\
                 ExecutionResult.output r = out) /\
    (forall e, snd (executeScript h ctx) = Throw e ->
               ExecutionResult.success r = false /\
               ExecutionResult.output r = message e).
Proof.
  rewrite withResult_unfold.
  destruct (executeScript h ctx) as [tr [out|e]]; eexists;
    (split; [reflexivity|]); simpl;
    repeat split; intros; try discriminate; congruence.
Qed.

(** X18. For an application that is not in ALLOWED_APPS, testAppAccess
    returns false without spawning the engine: its probe is validated, and
    the validator rejects it. *)
Theorem X18_access_test_refuses_unlisted (h : Host) (appName : string) :
  ~ In appName ALLOWED_APPS ->
  snd (testAppAccess h appName) = Ok false /\
  spawnCount (fst (testAppAccess h appName)) = 0%nat.
Proof.
  intro N. destruct (access_rejected appName N) as (e & R).
  rewrite testAppAccess_unfold.
  rewrite (execute_rejected h
             (ExecutionContext.mk (testAppAccessScript appName) appName
                "test_access" (Some 5000) None) e eq_refl R).
  split; reflexivity.
Qed.

Lemma X18_witness :
  let h := mkHost (fun _ => Settles 1 (Ok "success")) 1 in
  snd (testAppAccess h "System Events") = Ok false /\
  spawnCount (fst (testAppAccess h "System Events")) = 0%nat.
Proof.
  intro h. apply (X18_access_test_refuses_unlisted h "System Events").
  vm_compute. intuition discriminate.
Defined.

(** X19. For an application in ALLOWED_APPS the probe of testAppAccess
    passes validation and the engine is spawned once; testAppAccess returns
    true exactly when the engine fulfils its promise within 5000
    milliseconds, and false on every other outcome. *)
Theorem X19_access_test_of_listed (h : Host) (appName : string) :
  In appName ALLOWED_APPS ->
  validateScript (testAppAccessScript appName) appName = Ok tt /\
  spawnCount (fst (testAppAccess h appName)) = 1%nat /\
  (exists b, snd (testAppAccess h appName) = Ok b) /\
  (snd (testAppAccess h appName) = Ok true <->
   exists out,
     fulfilsWithin (runAppleScript h (testAppAccessScript appName)) 5000 out).
Proof.
  intro I. pose proof (access_accepted appName I) as A.
  split; [exact A|].
  rewrite testAppAccess_unfold.
  set (ctx := ExecutionContext.mk (testAppAccessScript appName) appName
                "test_access" (Some 5000) None).
  destruct (execute_reached h ctx (or_intror A)) as [E C].
  destruct (executeScript h ctx) as [tr r]. simpl in E, C |- *.
  destruct (timeout _ _ _) as [out|m] eqn:T; subst r; simpl.
  - rewrite spawnCount_app, C. split; [reflexivity|].
    split; [now exists true|]. split; [|reflexivity].
    intros _. exists out. exact (timeout_ok_inv _ _ _ _ T).
  - rewrite spawnCount_app, C. split; [reflexivity|].
    split; [now exists false|]. split; [discriminate|].
    intros (out & F).
    rewrite (timeout_fulfils h ctx out _
               ltac:(vm_compute; split; discriminate) F) in T.
    discriminate T.
Qed.

Lemma X19_witness :
  let h := mkHost (fun _ => Settles 5000 (Ok "success")) 5001 in
  snd (testAppAccess h "Calendar") = Ok true.
Proof.
  intro h.
  assert (I : In "Calendar" ALLOWED_APPS) by (simpl; tauto).
  apply (proj2 (proj2 (proj2 (X19_access_test_of_listed h "Calendar" I)))).
  exists "success", 5000. split; [reflexivity | vm_compute; discriminate].
Defined.

(** X20. isAppRunning returns true exactly when the engine fulfils its
    promise within 5000 milliseconds with an output that, trimmed, is the
    text true; on every other outcome it returns false. *)
Theorem X20_isAppRunning_true_iff (h : Host) (appName : string) :
  snd (isAppRunning h appName) = Ok true <->
  exists out,
    fulfilsWithin (runAppleScript h (isAppRunningScript appName)) 5000 out /\
    JS.trim out = "true".
Proof.
  rewrite isAppRunning_unfold.
  destruct (execute_reached h (isAppRunningContext appName)
              (or_introl eq_refl)) as [E _].
  destruct (executeScript h (isAppRunningContext appName)) as [tr r].
  simpl in E |- *.
  change (effectiveTimeout (isAppRunningContext appName)) with 5000 in E.
  destruct (timeout _ _ _) as [out|m] eqn:T; subst r; simpl.
  - split.
    + intro H. injection H as H. apply String.eqb_eq in H.
      exists out. split; [exact (timeout_ok_inv _ _ _ _ T) | exact H].
    + intros (out' & F & H).
      pose proof (timeout_fulfils h (isAppRunningContext appName) out'
                    (Some (msgTimedOut 5000))
                    ltac:(vm_compute; split; discriminate) F) as T'.
      change (effectiveTimeout (isAppRunningContext appName)) with 5000 in T'.
      simpl in T'. rewrite T in T'. injection T' as ->.
      now rewrite H.
  - split; [discriminate|]. intros (out' & F & _).
    pose proof (timeout_fulfils h (isAppRunningContext appName) out'
                  (Some (msgTimedOut 5000))
                  ltac:(vm_compute; split; discriminate) F) as T'.
    change (effectiveTimeout (isAppRunningContext appName)) with 5000 in T'.
    simpl in T'. rewrite T in T'. discriminate T'.
Qed.

(* ===================================================================== *)
(** ** Further properties: retry *)
(* ===================================================================== *)

Section Retry.

Context {A : Type}.
Variable fn : nat -> Result string A.
Variables maxDelay mult : Z.


Lemma retryLoop_all_fail :
  forall left attempt d,
    (forall j, (j <= left)%nat -> exists e, fn (attempt + j) = Throw e) ->
    exists tr,
      retryLoop fn maxDelay mult left attempt d
        = (tr, fn (attempt + left)%nat) /\
      callsOf tr = seq attempt (S left) /\
      delaysOf tr = backoff maxDelay mult left d.
Proof.
  induction left as [|left IH]; intros attempt d Fail.
  - destruct (Fail 0%nat ltac:(lia)) as (e & E).
    rewrite Nat.add_0_r in E |- *.
    exists [Called attempt]. simpl. rewrite E. now repeat split.
  - destruct (Fail 0%nat ltac:(lia)) as (e & E). rewrite Nat.add_0_r in E.
    destruct (IH (S attempt) (d * mult)) as (tr & R & C & D).
    + intros j Hj. destruct (Fail (S j) ltac:(lia)) as (e' & E').
      exists e'. now rewrite <- E', Nat.add_succ_r.
    + exists (Called attempt :: Delayed (Z.min d maxDelay) :: tr).
      simpl. rewrite E, R. simpl. rewrite C, D, Nat.add_succ_r.
      now repeat split.
Qed.


End Retry.



Section RetrySchedule.

Context {A : Type}.
Variable fn : nat -> Result string A.
Variables maxDelay mult : Z.






End RetrySchedule.




(* ===================================================================== *)
(** ** Further properties: forbidden patterns across a template *)
(* ===================================================================== *)

Section PatternsAndDelimiters.

Lemma prefix_nil (p : string) :
  prefix p EmptyString = true -> p = EmptyString.
Proof. destruct p; [reflexivity | discriminate]. Qed.

Lemma prefix_cons (c d : ascii) (p s : string) :
  prefix (String c p) (String d s) = Ascii.eqb c d && prefix p s.
Proof.
  simpl. destruct (ascii_dec c d) as [->|N].
  - now rewrite Ascii.eqb_refl.
  - apply Ascii.eqb_neq in N. now rewrite N.
Qed.

(** A pattern without the character [d] cannot reach across [d]. *)
Lemma prefix_stop (d : ascii) (p : string) :
  (forall c, In c (chars p) -> c <> d) ->
  forall X B, prefix p (X ++ String d B) = prefix p X.
Proof.
  induction p as [|c p IH]; intros Av X B.
  - destruct X; reflexivity.
  - destruct X as [|x X].
    + change (EmptyString ++ String d B) with (String d B).
      rewrite prefix_cons.
      assert (N : c <> d) by (apply Av; now left).
      apply Ascii.eqb_neq in N. now rewrite N.
    + change (String x X ++ String d B) with (String x (X ++ String d B)).
      rewrite !prefix_cons, IH; [reflexivity|].
      intros c' I. apply Av. now right.
Qed.

Lemma includes_delim (d : ascii) (p : string) :
  p <> EmptyString ->
  (forall c, In c (chars p) -> c <> d) ->
  forall A B,
    JS.includes (A ++ String d B) p = JS.includes A p || JS.includes B p.
Proof.
  intros N Av A B. induction A as [|a A IH].
  - change (EmptyString ++ String d B) with (String d B).
    cbn [JS.includes].
    replace (prefix p (String d B)) with (prefix p EmptyString)
      by (symmetry; exact (prefix_stop d p Av EmptyString B)).
    destruct (prefix p EmptyString) eqn:P; [|reflexivity].
    apply prefix_nil in P. contradiction.
  - change (String a A ++ String d B) with (String a (A ++ String d B)).
    cbn [JS.includes].
    change (String a (A ++ String d B)) with (String a A ++ String d B).
    now rewrite (prefix_stop d p Av), IH, orb_assoc.
Qed.

Lemma find_none_forallb {X : Type} (f : X -> bool) (l : list X) :
  match find f l with None => true | Some _ => false end
  = forallb (fun x => negb (f x)) l.
Proof.
  induction l as [|x l IH]; simpl; [reflexivity|].
  destruct (f x); simpl; [reflexivity | exact IH].
Qed.

Lemma clean_forallb (s : string) :
  clean s =
  forallb (fun p => negb (JS.includes (JS.toLowerCase s) (JS.toLowerCase p)))
          FORBIDDEN_PATTERNS.
Proof.
  unfold clean, findForbiddenPattern, findForbiddenPatternIn.
  apply find_none_forallb.
Qed.

Lemma forallb_ext_in {X : Type} (f g : X -> bool) (l : list X) :
  (forall x, In x l -> f x = g x) -> forallb f l = forallb g l.
Proof.
  induction l as [|x l IH]; intro H; simpl; [reflexivity|].
  rewrite (H x) by now left. rewrite IH; [reflexivity|].
  intros y I. apply H. now right.
Qed.

Lemma forallb_andb {X : Type} (f g : X -> bool) (l : list X) :
  forallb (fun x => f x && g x) l = forallb f l && forallb g l.
Proof.
  induction l as [|x l IH]; simpl; [reflexivity|].
  rewrite IH. destruct (f x), (g x), (forallb f l); reflexivity.
Qed.

Lemma patternChar_avoids (c : ascii) (p : string) :
  patternChar FORBIDDEN_PATTERNS c = false ->
  In p FORBIDDEN_PATTERNS ->
  forall x, In x (chars (JS.toLowerCase p)) -> x <> JS.lowerChar c.
Proof.
  unfold patternChar. intros H I x Ix ->.
  assert (T : existsb
                (fun p => existsb (Ascii.eqb (JS.lowerChar c))
                            (chars (JS.toLowerCase p)))
                FORBIDDEN_PATTERNS = true).
  { apply existsb_exists. exists p. split; [exact I|].
    apply existsb_exists. exists (JS.lowerChar c). split; [exact Ix|].
    apply Ascii.eqb_refl. }
  congruence.
Qed.

Lemma pattern_not_empty (p : string) :
  In p FORBIDDEN_PATTERNS -> JS.toLowerCase p <> EmptyString.
Proof.
  intro I. simpl in I.
  repeat (destruct I as [<-|I]; [discriminate|]). contradiction.
Qed.

(** A character that is in no pattern separates the scan: a text is clean
    exactly when its two sides are. *)
Lemma clean_delim (d : ascii) (A B : string) :
  patternChar FORBIDDEN_PATTERNS d = false ->
  clean (A ++ String d B) = clean A && clean B.
Proof.
  intro D. rewrite !clean_forallb, <- forallb_andb.
  apply forallb_ext_in. intros p I.
  rewrite toLowerCase_append. cbn [JS.toLowerCase].
  rewrite includes_delim.
  - now rewrite negb_orb.
  - now apply pattern_not_empty.
  - now apply patternChar_avoids.
Qed.

(** Escaping neither creates nor removes an occurrence of a pattern. *)
Lemma prefix_escape (p : string) :
  (forall c, In c (chars p) -> c <> JS.BACKSLASH /\ c <> JS.DQUOTE) ->
  forall s,
    prefix p (JS.toLowerCase (flatMap escapeChar s))
    = prefix p (JS.toLowerCase s).
Proof.
  induction p as [|c p IH]; intros Av s.
  - destruct s; simpl; [reflexivity|].
    now destruct (JS.toLowerCase (escapeChar a ++ flatMap escapeChar s)).
  - destruct s as [|x s]; [reflexivity|].
    destruct (Av c ltac:(now left)) as [Nb Nq].
    apply Ascii.eqb_neq in Nb, Nq.
    cbn [flatMap]. unfold escapeChar.
    destruct (Ascii.eqb_spec x JS.BACKSLASH) as [->|Hb].
    + cbn [append JS.toLowerCase]. rewrite !prefix_cons.
      change (JS.lowerChar JS.BACKSLASH) with JS.BACKSLASH. now rewrite Nb.
    + destruct (Ascii.eqb_spec x JS.DQUOTE) as [->|Hq].
      * cbn [append JS.toLowerCase]. rewrite !prefix_cons.
        change (JS.lowerChar JS.BACKSLASH) with JS.BACKSLASH.
        change (JS.lowerChar JS.DQUOTE) with JS.DQUOTE.
        now rewrite Nb, Nq.
      * cbn [append JS.toLowerCase]. rewrite !prefix_cons, IH; [reflexivity|].
        intros c' I. apply Av. now right.
Qed.

Lemma includes_escape (p : string) :
  p <> EmptyString ->
  (forall c, In c (chars p) -> c <> JS.BACKSLASH /\ c <> JS.DQUOTE) ->
  forall s,
    JS.includes (JS.toLowerCase (flatMap escapeChar s)) p
    = JS.includes (JS.toLowerCase s) p.
Proof.
  intros N Av. destruct p as [|c p]; [contradiction|].
  destruct (Av c ltac:(now left)) as [Nb Nq].
  apply Ascii.eqb_neq in Nb, Nq.
  induction s as [|x s IH]; [reflexivity|].
  pose proof (prefix_escape (String c p) Av (String x s)) as P.
  cbn [flatMap] in *. unfold escapeChar in *.
  destruct (Ascii.eqb_spec x JS.BACKSLASH) as [->|Hb].
  - cbn [append JS.toLowerCase JS.includes]. rewrite !prefix_cons.
    change (JS.lowerChar JS.BACKSLASH) with JS.BACKSLASH.
    now rewrite Nb, IH.
  - destruct (Ascii.eqb_spec x JS.DQUOTE) as [->|Hq].
    + cbn [append JS.toLowerCase JS.includes]. rewrite !prefix_cons.
      change (JS.lowerChar JS.BACKSLASH) with JS.BACKSLASH.
      change (JS.lowerChar JS.DQUOTE) with JS.DQUOTE.
      now rewrite Nb, Nq, IH.
    + cbn [append JS.toLowerCase JS.includes] in *. now rewrite P, IH.
Qed.

Lemma clean_escape (s : string) :
  clean (escapeAppleScriptString s) = clean s.
Proof.
  rewrite escape_flatMap, !clean_forallb.
  apply forallb_ext_in. intros p I. f_equal.
  apply includes_escape; [now apply pattern_not_empty|].
  intros c Ic. split.
  - exact (patternChar_avoids JS.BACKSLASH p eq_refl I c Ic).
  - exact (patternChar_avoids JS.DQUOTE p eq_refl I c Ic).
Qed.

Lemma clean_spec (s : string) :
  clean s = true <->
  forall p, In p FORBIDDEN_PATTERNS -> ~ ciOccurs p s.
Proof.
  rewrite <- findForbidden_none. unfold clean.
  destruct (findForbiddenPattern s); split; congruence.
Qed.

End PatternsAndDelimiters.

(* ===================================================================== *)
(** ** Further properties: the script of a new note *)
(* ===================================================================== *)

Section CreateNote.

Ltac flatten_append :=
  repeat (rewrite ?append_assoc; cbn [append]).

Lemma createNote_template (F T B : string) :
  LFs ++
  "tell application " ++ JS.quoted "Notes" ++ LFs ++
  "    set targetFolder to folder " ++ JS.quoted F ++ LFs ++
  "    set newNote to make new note at targetFolder with properties {body:"
    ++ JS.quoted ("<h1>" ++ T ++ "</h1><div>" ++ B ++ "</div>") ++ "}" ++ LFs ++
  "    return id of newNote & " ++ JS.quoted "|" ++ " & name of newNote & "
    ++ JS.quoted "|" ++ " & name of targetFolder" ++ LFs ++
  "end tell" ++ LFs ++
  "  "
  = LFs ++ createNoteText F T B ++ LFs ++ "  ".
Proof.
  cbv [createNoteText noteSeg0 noteSeg1 noteSeg2 noteSeg3 JS.quoted LFs].
  flatten_append. reflexivity.
Qed.

Lemma createNoteText_tail (F T B : string) :
  exists A, createNoteText F T B = A ++ noteSeg3.
Proof.
  exists (noteSeg0 ++ String JS.DQUOTE (F ++ String JS.DQUOTE (noteSeg1 ++
          String ">" (T ++ String "<" (noteSeg2 ++ String ">" (B ++ "<")))))).
  unfold createNoteText. flatten_append. reflexivity.
Qed.

Lemma generateCreateNoteScript_eq (params : CreateNoteParams.t) :
  generateCreateNoteScript params =
  createNoteText (escapeAppleScriptString (CreateNoteParams.folder params))
                 (escapeAppleScriptString (CreateNoteParams.title params))
                 (escapeAppleScriptString (CreateNoteParams.body params)).
Proof.
  unfold generateCreateNoteScript. cbv zeta.
  rewrite createNote_template.
  set (F := escapeAppleScriptString (CreateNoteParams.folder params)).
  set (T := escapeAppleScriptString (CreateNoteParams.title params)).
  set (B := escapeAppleScriptString (CreateNoteParams.body params)).
  unfold JS.trim.
  change (JS.trimStart (LFs ++ createNoteText F T B ++ LFs ++ "  "))
    with (createNoteText F T B ++ LFs ++ "  ").
  rewrite trimEnd_blank_append by reflexivity.
  destruct (createNoteText_tail F T B) as (A & ->).
  now rewrite trimEnd_append.
Qed.

Lemma createNoteText_clause (F T B : string) :
  exists post,
    createNoteText F T B
    = EmptyString ++ ("tell application " ++ JS.quoted "Notes") ++ post.
Proof.
  eexists. unfold createNoteText, noteSeg0. flatten_append. reflexivity.
Qed.

Lemma notes_clause : OpeningClause "Notes" ("tell application " ++ JS.quoted "Notes").
Proof.
  apply (OpeningClause_intro "Notes" "tell" " " "application" " "
           JS.DQUOTE JS.DQUOTE); try reflexivity;
    try (split; [discriminate | reflexivity]); discriminate.
Qed.

Lemma clean_createNoteText (F T B : string) :
  clean (createNoteText F T B) = clean F && clean T && clean B.
Proof.
  unfold createNoteText.
  rewrite !clean_delim by reflexivity.
  change (clean noteSeg0) with true. change (clean noteSeg1) with true.
  change (clean noteSeg2) with true. change (clean noteSeg3) with true.
  cbn [andb]. now rewrite !andb_true_r, andb_assoc.
Qed.

Lemma length_createNoteText (F T B : string) :
  (String.length B <= String.length (createNoteText F T B))%nat.
Proof.
  unfold createNoteText.
  repeat (rewrite ?length_append; cbn [String.length]). lia.
Qed.

End CreateNote.

Lemma createNote_targets (F T B : string) :
  (exists rest, Regex.matchAll (createNoteText F T B) = "Notes" :: rest) /\
  scriptTargetsApp (createNoteText F T B) "Notes" = true /\
  startsWithTellApplication (createNoteText F T B) = true.
Proof.
  destruct (createNoteText_clause F T B) as (post & E). rewrite E.
  split; [|split].
  - apply (matchAll_head _ _
             (String.length ("tell application " ++ JS.quoted "Notes"))).
    apply (tellAt_complete "Notes" _ post notes_clause).
  - apply (leading_clause_targets EmptyString _ post "Notes" "Notes");
      [reflexivity | exact notes_clause | reflexivity].
  - apply (leading_clause_starts EmptyString _ post "Notes");
      [reflexivity | exact notes_clause].
Qed.

(** X24. Whatever the title, body and folder, the script of
    generateCreateNoteScript is the fixed template around the three escaped
    fields; it is not blank, its first opening clause names Notes, and it
    passes both the self-consistency scan for the declared application
    Notes and the structural-start check. *)
Theorem X24_create_note_script_targets_Notes (params : CreateNoteParams.t) :
  let script := generateCreateNoteScript params in
  script =
    createNoteText (escapeAppleScriptString (CreateNoteParams.folder params))
                   (escapeAppleScriptString (CreateNoteParams.title params))
                   (escapeAppleScriptString (CreateNoteParams.body params)) /\
  blank script = false /\
  (exists rest, Regex.matchAll script = "Notes" :: rest) /\
  scriptTargetsApp script "Notes" = true /\
  startsWithTellApplication script = true.
Proof.
  intro script. unfold script. rewrite generateCreateNoteScript_eq.
  split; [reflexivity|]. split; [reflexivity|].
  apply createNote_targets.
Qed.

(** X25. A generated create-note script of at most 50000 characters is
    accepted by validateScript for the application Notes exactly when no
    forbidden pattern occurs, up to case, in the title, in the body or in
    the folder name. *)
Theorem X25_create_note_accepted_iff (params : CreateNoteParams.t) :
  JS.length (generateCreateNoteScript params) <= maxLength ->
  (validateScript (generateCreateNoteScript params) "Notes" = Ok tt <->
   forall p, In p FORBIDDEN_PATTERNS ->
     ~ ciOccurs p (CreateNoteParams.title params) /\
     ~ ciOccurs p (CreateNoteParams.body params) /\
     ~ ciOccurs p (CreateNoteParams.folder params)).
Proof.
  intro L. revert L. rewrite generateCreateNoteScript_eq.
  set (F := escapeAppleScriptString (CreateNoteParams.folder params)).
  set (T := escapeAppleScriptString (CreateNoteParams.title params)).
  set (B := escapeAppleScriptString (CreateNoteParams.body params)).
  intro L. destruct (createNote_targets F T B) as (_ & Tg & St).
  assert (C : clean (createNoteText F T B)
              = clean (CreateNoteParams.folder params)
                && clean (CreateNoteParams.title params)
                && clean (CreateNoteParams.body params))
    by (rewrite clean_createNoteText; unfold F, T, B;
        now rewrite !clean_escape).
  assert (V : validateScript (createNoteText F T B) "Notes" = Ok tt
              <-> clean (createNoteText F T B) = true).
  { unfold clean. split.
    - intro A. apply accepted_inv in A as (_ & _ & _ & _ & -> & _).
      reflexivity.
    - intro Cl. apply validate_accept; trivial.
      now destruct (findForbiddenPattern (createNoteText F T B)). }
  rewrite V, C, !andb_true_iff, !clean_spec. split.
  - intros ((Ff & Ft) & Fb) p I.
    split; [now apply Ft | split; [now apply Fb | now apply Ff]].
  - intro H. repeat split; intros p I; now apply (H p I).
Qed.

Lemma X25_witness :
  let params := CreateNoteParams.mk "Learn Python" "Chapter 1" "Notes" in
  validateScript (generateCreateNoteScript params) "Notes" = Ok tt <->
  forall p, In p FORBIDDEN_PATTERNS ->
    ~ ciOccurs p "Learn Python" /\ ~ ciOccurs p "Chapter 1" /\
    ~ ciOccurs p "Notes".
Proof.
  intros params.
  apply (X25_create_note_accepted_iff params).
  vm_compute. discriminate.
Defined.

(** X26. A note whose body has more than 50000 characters cannot be
    created: the generated script is longer than the body, and
    validateScript rejects it with the length reason. *)
Theorem X26_long_body_rejected (params : CreateNoteParams.t) :
  maxLength < JS.length (CreateNoteParams.body params) ->
  exists e,
    validateScript (generateCreateNoteScript params) "Notes" = Throw e /\
    message e = msgTooLong.
Proof.
  intro L. rewrite generateCreateNoteScript_eq.
  eexists. split.
  - apply validate_too_long; [reflexivity|].
    unfold JS.length in *.
    pose proof (length_createNoteText
                  (escapeAppleScriptString (CreateNoteParams.folder params))
                  (escapeAppleScriptString (CreateNoteParams.title params))
                  (escapeAppleScriptString (CreateNoteParams.body params))).
    pose proof (length_escape (CreateNoteParams.body params)). lia.
  - reflexivity.
Qed.

Lemma X26_witness :
  let params :=
    CreateNoteParams.mk "T" (repeatChar "a" (Z.to_nat 50001)) "Notes" in
  exists e,
    validateScript (generateCreateNoteScript params) "Notes" = Throw e /\
    message e = msgTooLong.
Proof.
  intro params. apply (X26_long_body_rejected params).
  vm_compute. reflexivity.
Defined.

(* ===================================================================== *)
(** ** Further properties: forbidden patterns around fixed text *)
(* ===================================================================== *)

Section Seams.

Lemma prefix_append_cross (p : string) :
  forall X B, prefix p (X ++ B) = prefix p X || cross p X B.
Proof.
  induction p as [|c p IH]; intros [|x X] B.
  - now destruct B.
  - reflexivity.
  - cbn [append cross prefix]. now destruct (String.eqb_spec (String c p) EmptyString).
  - change (String x X ++ B) with (String x (X ++ B)).
    rewrite !prefix_cons, IH. cbn [cross].
    destruct (Ascii.eqb c x); reflexivity.
Qed.

(** An occurrence in a concatenation lies in the left part, in the right
    part, or across the seam. *)
Lemma includes_append (p A B : string) :
  JS.includes (A ++ B) p
  = JS.includes A p || JS.includes B p || straddles p A B.
Proof.
  induction A as [|a A IH].
  - cbn [append straddles]. rewrite orb_false_r.
    destruct (JS.includes EmptyString p) eqn:E; [|reflexivity].
    cbn [JS.includes] in E. rewrite orb_false_r in E.
    apply prefix_nil in E. subst p. now destruct B.
  - change (String a A ++ B) with (String a (A ++ B)).
    cbn [JS.includes straddles].
    change (String a (A ++ B)) with (String a A ++ B).
    rewrite prefix_append_cross, IH.
    destruct (prefix p (String a A)), (cross p (String a A) B),
      (JS.includes A p), (JS.includes B p), (straddles p A B); reflexivity.
Qed.

Lemma clashes_prefix (v : string) :
  forall S B, clashes v S = true -> prefix v (S ++ B) = false.
Proof.
  induction v as [|c v IH]; intros [|d S] B H; try discriminate H.
  change (String d S ++ B) with (String d (S ++ B)).
  rewrite prefix_cons. cbn [clashes] in H.
  destruct (Ascii.eqb c d); [now rewrite IH | reflexivity].
Qed.

Lemma clashes_self (X v : string) : clashes X (X ++ v) = false.
Proof.
  induction X as [|x X IH]; [reflexivity|].
  cbn [append clashes]. now rewrite Ascii.eqb_refl.
Qed.

Lemma cross_split (p : string) :
  forall X B, cross p X B = true ->
  exists v, p = X ++ v /\ v <> EmptyString /\ prefix v B = true.
Proof.
  induction p as [|c p IH]; intros [|x X] B H; cbn [cross] in H;
    try discriminate H.
  - apply andb_true_iff in H as [_ H]. exists (String c p).
    split; [reflexivity|]. split; [discriminate | exact H].
  - apply andb_true_iff in H as [E H]. apply Ascii.eqb_eq in E as ->.
    destruct (IH _ _ H) as (v & -> & N & P). now exists v.
Qed.

Lemma suffixes_append (X v : string) :
  v <> EmptyString -> In v (suffixes (X ++ v)).
Proof.
  intro N. induction X as [|x X IH].
  - destruct v; [contradiction | now left].
  - now right.
Qed.

Lemma straddles_left (p A B : string) :
  (forall v, In v (properSuffixes p) -> prefix v B = false) ->
  straddles p A B = false.
Proof.
  intro H. induction A as [|a A IH]; [reflexivity|].
  cbn [straddles]. rewrite IH, orb_false_r.
  destruct (cross p (String a A) B) eqn:C; [|reflexivity].
  destruct (cross_split _ _ _ C) as (v & -> & N & P).
  rewrite H in P; [discriminate|].
  cbn [append properSuffixes]. now apply suffixes_append.
Qed.

Lemma straddles_right (p S B : string) :
  (forall X, In X (suffixes S) -> clashes X p = true) ->
  straddles p S B = false.
Proof.
  induction S as [|s S IH]; intro H; [reflexivity|].
  cbn [straddles]. rewrite IH by (intros X I; apply H; now right).
  rewrite orb_false_r.
  destruct (cross p (String s S) B) eqn:C; [|reflexivity].
  destruct (cross_split _ _ _ C) as (v & -> & _ & _).
  pose proof (clashes_self (String s S) v) as K.
  rewrite H in K by now left. discriminate K.
Qed.

Lemma includes_sep (p A S B : string) :
  sepSafeFor p S = true ->
  JS.includes (A ++ S ++ B) p = JS.includes A p || JS.includes B p.
Proof.
  unfold sepSafeFor. rewrite !andb_true_iff, negb_true_iff, !forallb_forall.
  intros ((L & N) & R).
  rewrite includes_append, (includes_append p S B), N.
  rewrite (straddles_right p S B R).
  rewrite (straddles_left p A (S ++ B))
    by (intros v I; apply clashes_prefix; now apply L).
  now rewrite !orb_false_r.
Qed.

(** Fixed text that no pattern can touch separates the scan. *)
Lemma clean_sep (A S B : string) :
  sepSafe S = true ->
  clean (A ++ S ++ B) = clean A && clean B.
Proof.
  unfold sepSafe. rewrite forallb_forall. intro H.
  rewrite !clean_forallb, <- forallb_andb.
  apply forallb_ext_in. intros p I.
  rewrite !toLowerCase_append, includes_sep by now apply H.
  now rewrite negb_orb.
Qed.

Lemma clean_first (S B : string) :
  sepSafe S = true -> clean (S ++ B) = clean B.
Proof.
  intro H. change (S ++ B) with (EmptyString ++ S ++ B).
  now rewrite clean_sep.
Qed.

Lemma clean_last (A S : string) :
  sepSafe S = true -> clean (A ++ S) = clean A.
Proof.
  intro H. rewrite <- (append_nil_r S), clean_sep by exact H.
  apply andb_true_r.
Qed.

End Seams.

(* ===================================================================== *)
(** ** Further properties: scripts woven from a skeleton *)
(* ===================================================================== *)

Section Skeletons.

Lemma clean_firstSafe (S B : string) :
  firstSafe S = true -> clean (S ++ B) = clean B.
Proof.
  unfold firstSafe. rewrite forallb_forall. intro H.
  rewrite !clean_forallb. apply forallb_ext_in. intros p I.
  specialize (H p I). apply andb_true_iff in H as [N R].
  apply negb_true_iff in N. rewrite forallb_forall in R.
  rewrite toLowerCase_append, includes_append, N.
  now rewrite (straddles_right _ _ _ R), orb_false_r.
Qed.

Lemma clean_weaveTail (fields : list string) :
  forall segs,
    forallb sepSafe segs = true ->
    List.length segs = List.length fields ->
    clean (weaveTail fields segs) = forallb clean fields.
Proof.
  induction fields as [|f fields IH]; intros [|s segs] S L;
    try discriminate L; [reflexivity|].
  cbn [weaveTail forallb] in *. apply andb_true_iff in S as [Ss S].
  rewrite clean_sep by exact Ss. rewrite IH; [reflexivity | exact S|].
  now injection L.
Qed.

Lemma trimEnd_trimmed (A t : string) :
  trimmed t = true -> JS.trimEnd (A ++ t) = A ++ t.
Proof.
  unfold trimmed. rewrite andb_true_iff, negb_true_iff, String.eqb_eq.
  intros [B T]. now rewrite trimEnd_append, T.
Qed.

Lemma weaveTail_last (fields : list string) :
  forall segs,
    List.length segs = List.length fields -> segs <> [] ->
    exists A, weaveTail fields segs = A ++ last segs EmptyString.
Proof.
  induction fields as [|f fields IH]; intros [|s segs] L N;
    try discriminate L; try contradiction.
  cbn [weaveTail]. destruct segs as [|s' segs].
  - destruct fields; [|discriminate L].
    exists f. cbn [weaveTail last]. now rewrite append_nil_r.
  - destruct (IH (s' :: segs)) as (A & E); [now injection L | discriminate|].
    exists (f ++ s ++ A). rewrite E.
    change (last (s :: s' :: segs) EmptyString)
      with (last (s' :: segs) EmptyString).
    now rewrite !append_assoc.
Qed.

Lemma weave_last (segs fields : list string) :
  List.length segs = S (List.length fields) ->
  exists A, weave segs fields = A ++ last segs EmptyString.
Proof.
  destruct segs as [|s0 segs]; [discriminate|]. intro L.
  cbn [weave]. destruct segs as [|s1 segs].
  - destruct fields; [|discriminate L].
    exists EmptyString. cbn [weaveTail last append]. apply append_nil_r.
  - destruct (weaveTail_last fields (s1 :: segs)) as (A & E);
      [now injection L | discriminate|].
    exists (s0 ++ A). rewrite E.
    change (last (s0 :: s1 :: segs) EmptyString)
      with (last (s1 :: segs) EmptyString).
    now rewrite append_assoc.
Qed.

(** A script woven from a skeleton, between blank margins, trims to the
    woven text. *)
Lemma trim_weave (segs fields : list string) (pre post : string) :
  skeleton segs = true ->
  List.length segs = S (List.length fields) ->
  blank pre = true -> blank post = true ->
  JS.trim (pre ++ weave segs fields ++ post) = weave segs fields.
Proof.
  intros K L Bpre Bpost.
  destruct (weave_last segs fields L) as (A & E).
  destruct segs as [|s0 segs]; [discriminate K|].
  cbn [skeleton] in K. rewrite !andb_true_iff in K.
  destruct K as (((P & _) & _) & T).
  apply prefix_spec in P as (post0 & P).
  unfold JS.trim. rewrite trimStart_blank_append by exact Bpre.
  assert (St : forall r, JS.trimStart (weave (s0 :: segs) fields ++ r)
                         = weave (s0 :: segs) fields ++ r).
  { intro r. cbn [weave]. rewrite P. reflexivity. }
  rewrite St, trimEnd_blank_append by exact Bpost.
  rewrite E. now apply trimEnd_trimmed.
Qed.

Lemma weave_targets (segs fields : list string) :
  skeleton segs = true ->
  blank (weave segs fields) = false /\
  scriptTargetsApp (weave segs fields) "Notes" = true /\
  startsWithTellApplication (weave segs fields) = true.
Proof.
  intro K. destruct segs as [|s0 segs]; [discriminate K|].
  cbn [skeleton] in K. rewrite !andb_true_iff in K.
  destruct K as (((P & _) & _) & _).
  apply prefix_spec in P as (post0 & P).
  cbn [weave]. rewrite P, append_assoc.
  change (notesClause ++ post0 ++ weaveTail fields segs)
    with (EmptyString ++ notesClause ++ post0 ++ weaveTail fields segs).
  split; [reflexivity|]. split.
  - apply (leading_clause_targets EmptyString _ _ "Notes" "Notes");
      [reflexivity | exact notes_clause | reflexivity].
  - apply (leading_clause_starts EmptyString _ _ "Notes");
      [reflexivity | exact notes_clause].
Qed.

Lemma clean_weave (segs fields : list string) :
  skeleton segs = true ->
  List.length segs = S (List.length fields) ->
  clean (weave segs fields) = forallb clean fields.
Proof.
  intros K L. destruct segs as [|s0 segs]; [discriminate K|].
  cbn [skeleton] in K. rewrite !andb_true_iff in K.
  destruct K as (((_ & F) & S) & _).
  cbn [weave]. rewrite clean_firstSafe by exact F.
  apply clean_weaveTail; [exact S | now injection L].
Qed.

Lemma clean_escaped (fields : list string) :
  forallb clean (map escapeAppleScriptString fields) = forallb clean fields.
Proof.
  induction fields as [|f fields IH]; [reflexivity|].
  cbn [map forallb]. now rewrite clean_escape, IH.
Qed.

Lemma forallb_clean_spec (fields : list string) :
  forallb clean fields = true <->
  forall p f, In p FORBIDDEN_PATTERNS -> In f fields -> ~ ciOccurs p f.
Proof.
  rewrite forallb_forall. split.
  - intros H p f Ip If. exact (proj1 (clean_spec f) (H f If) p Ip).
  - intros H f If. apply clean_spec. intros p Ip. now apply H.
Qed.

(** A script woven from a skeleton around escaped fields, if it is within
    the maximum length, is accepted for Notes exactly when no pattern
    occurs in a field. *)
Lemma woven_accepted_iff (segs fields : list string) :
  skeleton segs = true ->
  List.length segs = S (List.length fields) ->
  let script := weave segs (map escapeAppleScriptString fields) in
  JS.length script <= maxLength ->
  (validateScript script "Notes" = Ok tt <->
   forall p f, In p FORBIDDEN_PATTERNS -> In f fields -> ~ ciOccurs p f).
Proof.
  intros K L script Len.
  assert (L' : List.length segs
               = S (List.length (map escapeAppleScriptString fields)))
    by now rewrite length_map.
  destruct (weave_targets segs (map escapeAppleScriptString fields) K)
    as (B & T & St).
  rewrite <- forallb_clean_spec, <- clean_escaped,
    <- (clean_weave segs _ K L').
  fold script in B, T, St |- *. unfold clean. split.
  - intro A. apply accepted_inv in A as (_ & _ & _ & _ & -> & _).
    reflexivity.
  - intro Cl. apply validate_accept; trivial.
    now destruct (findForbiddenPattern script).
Qed.

End Skeletons.

(* ===================================================================== *)
(** ** Further properties: the append and search scripts *)
(* ===================================================================== *)

Section NotesTemplates.

Ltac weave_eq :=
  cbv [appendByIdTemplate appendInFolderTemplate appendByTitleTemplate
       searchInFolderTemplate searchAllTemplate
       appendByIdSegs appendInFolderSegs appendByTitleSegs
       searchInFolderSegs searchAllSegs
       weave weaveTail DQs BSs LFs JS.DQUOTE JS.BACKSLASH JS.LF ascii_of_N
       ascii_of_pos];
  repeat (rewrite ?append_assoc; cbn [append]);
  reflexivity.

Lemma appendById_woven (i c : string) :
  appendByIdTemplate i c
  = LFs ++ weave appendByIdSegs [i; c] ++ LFs ++ "    ".
Proof. weave_eq. Qed.

Lemma appendInFolder_woven (f t c : string) :
  appendInFolderTemplate f t c
  = LFs ++ weave appendInFolderSegs [f; t; c; t; f] ++ LFs ++ "      ".
Proof. weave_eq. Qed.

Lemma appendByTitle_woven (t c : string) :
  appendByTitleTemplate t c
  = LFs ++ weave appendByTitleSegs [t; c; t] ++ LFs ++ "      ".
Proof. weave_eq. Qed.

Lemma searchInFolder_woven (f q : string) :
  searchInFolderTemplate f q
  = LFs ++ weave searchInFolderSegs [f; q; q] ++ LFs ++ "    ".
Proof. weave_eq. Qed.

Lemma searchAll_woven (q : string) :
  searchAllTemplate q = LFs ++ weave searchAllSegs [q; q] ++ LFs ++ "    ".
Proof. weave_eq. Qed.

End NotesTemplates.

Section NotesScripts.

Lemma search_woven (params : SearchNotesParams.t) :
  exists segs,
    skeleton segs = true /\
    List.length segs = S (List.length (searchFields params)) /\
    generateSearchNotesScript params
    = weave segs (map escapeAppleScriptString (searchFields params)).
Proof.
  unfold generateSearchNotesScript, searchFields.
  destruct (truthy (SearchNotesParams.folder params)) as [folder|].
  - exists searchInFolderSegs.
    split; [vm_compute; reflexivity|]. split; [reflexivity|].
    cbv zeta. rewrite searchInFolder_woven.
    now apply trim_weave.
  - exists searchAllSegs.
    split; [vm_compute; reflexivity|]. split; [reflexivity|].
    cbv zeta. rewrite searchAll_woven.
    now apply trim_weave.
Qed.

Lemma append_woven (params : AppendNoteParams.t) (script : string) :
  generateAppendNoteScript params = Ok script ->
  exists segs,
    skeleton segs = true /\
    List.length segs = S (List.length (appendFields params)) /\
    script = weave segs (map escapeAppleScriptString (appendFields params)).
Proof.
  unfold generateAppendNoteScript, appendFields.
  destruct (truthy (AppendNoteParams.noteId params)) as [noteId|].
  - intro H. injection H as <-.
    exists appendByIdSegs.
    split; [vm_compute; reflexivity|]. split; [reflexivity|].
    rewrite appendById_woven. now apply trim_weave.
  - destruct (AppendNoteParams.title params) as [title|]; [|discriminate].
    destruct (truthy (AppendNoteParams.folder params)) as [folder|];
      intro H; injection H as <-.
    + exists appendInFolderSegs.
      split; [vm_compute; reflexivity|]. split; [reflexivity|].
      rewrite appendInFolder_woven. now apply trim_weave.
    + exists appendByTitleSegs.
      split; [vm_compute; reflexivity|]. split; [reflexivity|].
      rewrite appendByTitle_woven. now apply trim_weave.
Qed.

End NotesScripts.

(** X27. Whatever the query and the folder, the script of
    generateSearchNotesScript passes the self-consistency scan for Notes
    and the structural-start check; if it has at most 50000 characters, it
    is accepted by validateScript for Notes exactly when no forbidden
    pattern occurs, up to case, in the query or in the folder name, where a
    folder that is absent or empty is not used. *)
Theorem X27_search_script_accepted_iff (params : SearchNotesParams.t) :
  let script := generateSearchNotesScript params in
  scriptTargetsApp script "Notes" = true /\
  startsWithTellApplication script = true /\
  (JS.length script <= maxLength ->
   (validateScript script "Notes" = Ok tt <->
    forall p f, In p FORBIDDEN_PATTERNS -> In f (searchFields params) ->
                ~ ciOccurs p f)).
Proof.
  intro script. unfold script.
  destruct (search_woven params) as (segs & K & L & ->).
  destruct (weave_targets segs
              (map escapeAppleScriptString (searchFields params)) K)
    as (_ & T & S).
  split; [exact T|]. split; [exact S|].
  now apply woven_accepted_iff.
Qed.

(** X28. generateAppendNoteScript fails with a TypeError exactly when the
    note id is absent or empty and the title is absent; in every other case
    it returns a script.  A note id that is given and not empty decides the
    script together with the content alone: title and folder are not
    used. *)
Theorem X28_append_script_failure (params : AppendNoteParams.t) :
  (generateAppendNoteScript params = Throw TypeError <->
   truthy (AppendNoteParams.noteId params) = None /\
   AppendNoteParams.title params = None) /\
  (generateAppendNoteScript params <> Throw TypeError ->
   exists script, generateAppendNoteScript params = Ok script) /\
  (forall noteId, truthy (AppendNoteParams.noteId params) = Some noteId ->
     generateAppendNoteScript params
     = generateAppendNoteScript
         (AppendNoteParams.mk (Some noteId) None None
            (AppendNoteParams.content params))).
Proof.
  unfold generateAppendNoteScript.
  destruct params as [id title folder content]; cbn [
    AppendNoteParams.noteId AppendNoteParams.title AppendNoteParams.folder
    AppendNoteParams.content].
  destruct (truthy id) as [noteId|] eqn:I.
  - split; [split; [discriminate | intros [H _]; discriminate]|].
    split; [eexists; reflexivity|].
    intros n H. injection H as <-.
    assert (N : String.eqb noteId EmptyString = false).
    { destruct id as [x|]; [|discriminate I]. cbn [truthy] in I.
      destruct (String.eqb x EmptyString) eqn:E; [discriminate I|].
      now injection I as <-. }
    cbn [truthy]. now rewrite N.
  - destruct title as [t|].
    + destruct (truthy folder);
        (split; [split; [discriminate | intros [_ H]; discriminate]|]);
        (split; [|discriminate]); eexists; reflexivity.
    + split; [split; [now split | reflexivity]|].
      split; [contradiction | discriminate].
Qed.

(** X29. Every script that generateAppendNoteScript returns passes the
    self-consistency scan for Notes and the structural-start check; if it
    has at most 50000 characters, it is accepted by validateScript for
    Notes exactly when no forbidden pattern occurs, up to case, in a field
    that the script uses: the note id and the content, or the title, the
    content and the folder that is given and not empty. *)
Theorem X29_append_script_accepted_iff
  (params : AppendNoteParams.t) (script : string) :
  generateAppendNoteScript params = Ok script ->
  scriptTargetsApp script "Notes" = true /\
  startsWithTellApplication script = true /\
  (JS.length script <= maxLength ->
   (validateScript script "Notes" = Ok tt <->
    forall p f, In p FORBIDDEN_PATTERNS -> In f (appendFields params) ->
                ~ ciOccurs p f)).
Proof.
  intro G. destruct (append_woven params script G) as (segs & K & L & ->).
  destruct (weave_targets segs
              (map escapeAppleScriptString (appendFields params)) K)
    as (_ & T & S).
  split; [exact T|]. split; [exact S|].
  now apply woven_accepted_iff.
Qed.

(** A note found by title in a folder; the content holds the word curl. *)
Lemma X29_witness :
  let params :=
    AppendNoteParams.mk None (Some "Shopping") (Some "Home")
      "see the curl manual" in
  exists script,
    generateAppendNoteScript params = Ok script /\
    scriptTargetsApp script "Notes" = true /\
    validateScript script "Notes" <> Ok tt.
Proof.
  intro params.
  destruct (generateAppendNoteScript params) as [script|] eqn:G;
    [|discriminate G].
  exists script. split; [reflexivity|].
  destruct (X29_append_script_accepted_iff params script G) as (T & _ & A).
  split; [exact T|]. intro V.
  assert (L : JS.length script <= maxLength).
  { vm_compute in G. injection G as <-. vm_compute. discriminate. }
  apply (proj1 (A L) V "curl" "see the curl manual").
  - simpl. tauto.
  - simpl. tauto.
  - exists "see the ", "curl", " manual". split; reflexivity.
Defined.
